(** * Fiora Editor: the Tkinter mock-up of [video_editor_gui.py]

    The program is one script: module-level statements build a widget tree and
    register callbacks, then the Tk main loop dispatches user events to those
    callbacks.  The embedding follows that shape:

    - module [Py]: the Python built-ins the callbacks use (string methods,
      number formatting, exceptions);
    - the tkinter objects the script creates (variables with write traces,
      ttk labels and buttons, the packer) and the record [App] of the module
      globals;
    - a state, exception and console monad [M], in which the callbacks of the
      script are written under their own names;
    - [startup], the construction script, and [handle], the dispatch of one
      user event;
    - the properties: an invariant of the main loop ([reachable_wired]) and
      the specification of each callback.

    Geometry, colours, fonts and the static title labels are left out: no
    callback reads them. *)

From Stdlib Require Import ZArith Ascii Floats DecimalString.
From stdpp Require Import gmap strings list fin_maps.

Local Open Scope string_scope.
Local Open Scope Z_scope.

(** ** Python built-ins *)

Module Py.

(** [str.upper] and [str.lower] on one character.  Strings are byte strings
    here; the two functions are exact on ASCII text, which is all the script
    ever passes to them (slider names). *)
Definition upper_char (c : ascii) : ascii :=
  let n := Ascii.N_of_ascii c in
  if ((97 <=? n) && (n <=? 122))%N then Ascii.ascii_of_N (n - 32) else c.

Definition lower_char (c : ascii) : ascii :=
  let n := Ascii.N_of_ascii c in
  if ((65 <=? n) && (n <=? 90))%N then Ascii.ascii_of_N (n + 32) else c.

Fixpoint upper (s : string) : string :=
  match s with
  | EmptyString => EmptyString
  | String c s' => String (upper_char c) (upper s')
  end.

Fixpoint lower (s : string) : string :=
  match s with
  | EmptyString => EmptyString
  | String c s' => String (lower_char c) (lower s')
  end.

(** [str.capitalize]: first character upper-cased, the rest lower-cased. *)
Definition capitalize (s : string) : string :=
  match s with
  | EmptyString => EmptyString
  | String c s' => String (upper_char c) (lower s')
  end.

(** [str(n)] and [f"{n}"] for an [int]. *)
Definition str_int (z : Z) : string := NilZero.string_of_int (Z.to_int z).

(** The exceptions the modelled code can raise. *)
Inductive exn :=
| NameError (name : string)
| KeyError (key : string)
| AttributeError (attribute : string)
| OverflowError
| ValueError.

(** A Python [float] is an IEEE 754 binary64 number. [Prim2SF] exposes it as
    sign, mantissa [m] and exponent [e] with value [m * 2^e]. *)

(** [int(x)]: truncation towards zero; infinities and NaN raise. *)
Definition int_float (x : float) : exn + Z :=
  match Prim2SF x with
  | S754_zero _ => inr 0
  | S754_infinity _ => inl OverflowError
  | S754_nan => inl ValueError
  | S754_finite s m e =>
      let a := if 0 <=? e then Z.pos m * 2 ^ e else Z.pos m / 2 ^ (- e) in
      inr (if s then - a else a)
  end.

(** Nearest integer to [num / den], ties to the even one ([0 <= num], [0 < den]). *)
Definition round_half_even (num den : Z) : Z :=
  let q := num / den in
  match 2 * (num mod den) ?= den with
  | Lt => q
  | Gt => q + 1
  | Eq => if Z.even q then q else q + 1
  end.

(** The magnitude [m * 2^e] in hundredths, correctly rounded. *)
Definition hundredths (m : positive) (e : Z) : Z :=
  if 0 <=? e then Z.pos m * 2 ^ e * 100
  else round_half_even (Z.pos m * 100) (2 ^ (- e)).

Definition two_digits (n : Z) : string :=
  if n <? 10 then "0" +:+ str_int n else str_int n.

Definition fixed2 (neg : bool) (h : Z) : string :=
  (if neg then "-" else "") +:+ str_int (h / 100) +:+ "." +:+ two_digits (h mod 100).

(** [f"{x:.2f}"]: the exact binary value rounded to two decimals, ties to
    even, the sign kept also when the digits are all zero. *)
Definition format_2f (x : float) : string :=
  match Prim2SF x with
  | S754_zero s => fixed2 s 0
  | S754_infinity s => if s then "-inf" else "inf"
  | S754_nan => "nan"
  | S754_finite s m e => fixed2 s (hundredths m e)
  end.

(** Digits of the fraction [r / 2^k] ([0 <= r < 2^k]): it is [r * 5^k / 10^k],
    so [k] digits, most significant first. *)
Fixpoint fraction_digits (k : nat) (r den : Z) : string :=
  match k with
  | O => ""
  | S k' =>
      if r =? 0 then ""
      else str_int (10 * r / den) +:+ fraction_digits k' (10 * r mod den) den
  end.

(** [str(x)] for a float.  Python prints the shortest digit string that reads
    back as [x]; this function prints the exact digits of [x] in positional
    notation, which is the same string whenever [x] is a whole number below
    [1e16] (the script applies [str] to [0.0] and [1.0] only) or a short
    binary fraction such as [0.5]. *)
Definition str_float (x : float) : string :=
  match Prim2SF x with
  | S754_zero s => if s then "-0.0" else "0.0"
  | S754_infinity s => if s then "-inf" else "inf"
  | S754_nan => "nan"
  | S754_finite s m e =>
      let sign := if s then "-" else "" in
      if 0 <=? e then sign +:+ str_int (Z.pos m * 2 ^ e) +:+ ".0"
      else
        let den := 2 ^ (- e) in
        let frac := fraction_digits (Z.to_nat (- e)) (Z.pos m mod den) den in
        sign +:+ str_int (Z.pos m / den) +:+ "." +:+
        (if String.eqb frac "" then "0" else frac)
  end.

End Py.

(** ** The tkinter objects the script creates *)

(** The module-level functions that are passed around as values. *)
Inductive PyFun :=
| fn_cut_tool | fn_move_tool | fn_add_text_tool | fn_adjust_tool
| fn_import_video | fn_export_video.

(** The frames packed into [prop_inner], the scrolled body of the
    properties panel. *)
Inductive Frame := adjust_header | adjust_frame | color_header | color_frame.

Global Instance Frame_eq_dec : EqDecision Frame.
Proof. solve_decision. Defined.

(** The callables given as [command=] of a button or a menu entry; a lambda
    is represented by the values it closes over. *)
Inductive Command :=
| call_fun (f : PyFun)
    (** [command=import_video] *)
| lambda_toolbar (command : PyFun) (name : string)
    (** [lambda: [command(), select_tool(name)]] of [make_toolbar_button] *)
| lambda_placeholder (action_name : string)
    (** [lambda: placeholder_action("...")] *)
| root_quit
| lambda_showinfo (title message : string)
| lambda_toggle (frame_container : Frame) (toggle_btn : string).
    (** [lambda: toggle_frame(adjust_frame, adjust_toggle)] *)

(** The closures registered with [trace_add('write', ...)]: [v] is the key of
    the traced variable in its dictionary, [dest_label] the value label. *)
Inductive Callback :=
| updater (v dest_label : string)          (** [make_updater(v, dest_label)] *)
| color_updater (v dest_label : string).   (** [make_color_updater(v, dest_label)] *)

(** What a Tcl variable behind an [IntVar] can hold: the script stores an
    [int], a [ttk.Scale] bound to the variable stores a [float]. *)
Inductive pynum := PyInt (z : Z) | PyFloat (x : float).

Record DoubleVar := { dv_value : float; dv_trace : list Callback }.
Record IntVar := { iv_value : pynum; iv_trace : list Callback }.

(** A [ttk.Label]: [lbl_text] is the value last given for [-text], at
    construction or by [configure(text=...)]; [lbl_textvariable] is the
    [-textvariable] option (the Tcl name of a variable).  With a
    [-textvariable] the widget does not keep the given text: its text slot,
    which is what it shows and what [cget('text')] returns, holds the value of
    the variable.  That slot is [Label_displayed] below. *)
Record Label := { lbl_text : string; lbl_textvariable : option string }.

(** A [ttk.Button]: its text, its command, the [pressed] state flag and the
    [original_text] attribute the script attaches to the section headers. *)
Record Button := {
  btn_text : string;
  btn_command : option Command;
  btn_pressed : bool;
  btn_original_text : option string
}.

(** A block of the timeline: a frame gridded at [(row, column)] holding one
    label. *)
Record Block := { blk_row : Z; blk_column : Z; blk_text : string }.

Inductive CanvasItem :=
| rectangle (x0 y0 x1 y1 : Z)
| canvas_text (x y : Z) (text : string).

(** ** Program state: the module globals and the widgets they refer to *)

Record App := {
  varnum : nat;
    (** tkinter's counter behind the names [PY_VAR0], [PY_VAR1], ... *)
  string_vars : gmap string string;
    (** the Tcl variables of the [StringVar]s, by Tcl name *)
  status_var : option string;
    (** the global [status_var]: unbound, or the Tcl name of its variable *)
  current_tool : option string;
  toolbar_buttons : gmap string Button;
  buttons : gmap string Button;
    (** [imp_btn], [exp_btn], [adjust_toggle], [color_toggle] *)
  labels : gmap string Label;
    (** [status_bar] and the value label of every slider *)
  adjustments_vars : gmap string DoubleVar;
  color_vars : gmap string IntVar;
  prop_inner_slaves : list Frame;
    (** the packing list of [prop_inner], in packing order *)
  timeline_inner : list Block;
  preview_canvas : list CanvasItem;
  timeline_window_height : option Z;
  quit_requested : bool
}.

Definition empty_app : App :=
  Build_App 0 ∅ None None ∅ ∅ ∅ ∅ ∅ [] [] [] None false.

Definition set_varnum (x : nat) (a : App) : App :=
  Build_App x (string_vars a) (status_var a) (current_tool a) (toolbar_buttons a)
    (buttons a) (labels a) (adjustments_vars a) (color_vars a) (prop_inner_slaves a)
    (timeline_inner a) (preview_canvas a) (timeline_window_height a) (quit_requested a).
Definition set_string_vars (x : gmap string string) (a : App) : App :=
  Build_App (varnum a) x (status_var a) (current_tool a) (toolbar_buttons a)
    (buttons a) (labels a) (adjustments_vars a) (color_vars a) (prop_inner_slaves a)
    (timeline_inner a) (preview_canvas a) (timeline_window_height a) (quit_requested a).
Definition set_status_var (x : option string) (a : App) : App :=
  Build_App (varnum a) (string_vars a) x (current_tool a) (toolbar_buttons a)
    (buttons a) (labels a) (adjustments_vars a) (color_vars a) (prop_inner_slaves a)
    (timeline_inner a) (preview_canvas a) (timeline_window_height a) (quit_requested a).
Definition set_current_tool (x : option string) (a : App) : App :=
  Build_App (varnum a) (string_vars a) (status_var a) x (toolbar_buttons a)
    (buttons a) (labels a) (adjustments_vars a) (color_vars a) (prop_inner_slaves a)
    (timeline_inner a) (preview_canvas a) (timeline_window_height a) (quit_requested a).
Definition set_toolbar_buttons (x : gmap string Button) (a : App) : App :=
  Build_App (varnum a) (string_vars a) (status_var a) (current_tool a) x
    (buttons a) (labels a) (adjustments_vars a) (color_vars a) (prop_inner_slaves a)
    (timeline_inner a) (preview_canvas a) (timeline_window_height a) (quit_requested a).
Definition set_buttons (x : gmap string Button) (a : App) : App :=
  Build_App (varnum a) (string_vars a) (status_var a) (current_tool a) (toolbar_buttons a)
    x (labels a) (adjustments_vars a) (color_vars a) (prop_inner_slaves a)
    (timeline_inner a) (preview_canvas a) (timeline_window_height a) (quit_requested a).
Definition set_labels (x : gmap string Label) (a : App) : App :=
  Build_App (varnum a) (string_vars a) (status_var a) (current_tool a) (toolbar_buttons a)
    (buttons a) x (adjustments_vars a) (color_vars a) (prop_inner_slaves a)
    (timeline_inner a) (preview_canvas a) (timeline_window_height a) (quit_requested a).
Definition set_adjustments_vars (x : gmap string DoubleVar) (a : App) : App :=
  Build_App (varnum a) (string_vars a) (status_var a) (current_tool a) (toolbar_buttons a)
    (buttons a) (labels a) x (color_vars a) (prop_inner_slaves a)
    (timeline_inner a) (preview_canvas a) (timeline_window_height a) (quit_requested a).
Definition set_color_vars (x : gmap string IntVar) (a : App) : App :=
  Build_App (varnum a) (string_vars a) (status_var a) (current_tool a) (toolbar_buttons a)
    (buttons a) (labels a) (adjustments_vars a) x (prop_inner_slaves a)
    (timeline_inner a) (preview_canvas a) (timeline_window_height a) (quit_requested a).
Definition set_prop_inner_slaves (x : list Frame) (a : App) : App :=
  Build_App (varnum a) (string_vars a) (status_var a) (current_tool a) (toolbar_buttons a)
    (buttons a) (labels a) (adjustments_vars a) (color_vars a) x
    (timeline_inner a) (preview_canvas a) (timeline_window_height a) (quit_requested a).
Definition set_timeline_inner (x : list Block) (a : App) : App :=
  Build_App (varnum a) (string_vars a) (status_var a) (current_tool a) (toolbar_buttons a)
    (buttons a) (labels a) (adjustments_vars a) (color_vars a) (prop_inner_slaves a)
    x (preview_canvas a) (timeline_window_height a) (quit_requested a).
Definition set_preview_canvas (x : list CanvasItem) (a : App) : App :=
  Build_App (varnum a) (string_vars a) (status_var a) (current_tool a) (toolbar_buttons a)
    (buttons a) (labels a) (adjustments_vars a) (color_vars a) (prop_inner_slaves a)
    (timeline_inner a) x (timeline_window_height a) (quit_requested a).
Definition set_timeline_window_height (x : option Z) (a : App) : App :=
  Build_App (varnum a) (string_vars a) (status_var a) (current_tool a) (toolbar_buttons a)
    (buttons a) (labels a) (adjustments_vars a) (color_vars a) (prop_inner_slaves a)
    (timeline_inner a) (preview_canvas a) x (quit_requested a).
Definition set_quit_requested (x : bool) (a : App) : App :=
  Build_App (varnum a) (string_vars a) (status_var a) (current_tool a) (toolbar_buttons a)
    (buttons a) (labels a) (adjustments_vars a) (color_vars a) (prop_inner_slaves a)
    (timeline_inner a) (preview_canvas a) (timeline_window_height a) x.

(** ** Computations: state, exceptions and the console

    A callback runs against the program state, may raise, and prints lines to
    standard output.  An exception keeps the state changes and the output made
    before it, as in Python. *)

Definition M (A : Type) : Type := App → (Py.exn + A) * App * list string.

Global Instance M_ret : MRet M := λ A x st, (inr x, st, []).

Global Instance M_bind : MBind M := λ A B f m st,
  match m st with
  | (inl e, st', out) => (inl e, st', out)
  | (inr x, st', out) =>
      match f x st' with (r, st'', out') => (r, st'', (out ++ out')%list) end
  end.

Definition raise {A} (e : Py.exn) : M A := λ st, (inl e, st, []).
Definition get : M App := λ st, (inr st, st, []).
Definition modify (f : App → App) : M unit := λ st, (inr tt, f st, []).
Definition print (line : string) : M unit := λ st, (inr tt, st, [line]).

Definition from_option {A} (e : Py.exn) (o : option A) : M A :=
  match o with Some x => mret x | None => raise e end.

Definition from_sum {A} (r : Py.exn + A) : M A :=
  match r with inr x => mret x | inl e => raise e end.

(** A [for] loop over a list. *)
Fixpoint for_each {A} (l : list A) (body : A → M unit) : M unit :=
  match l with
  | [] => mret tt
  | x :: l' => body x;; for_each l' body
  end.

(** Result, final state and output of a computation. *)
Definition result {A} (r : (Py.exn + A) * App * list string) : Py.exn + A := r.1.1.
Definition final {A} (r : (Py.exn + A) * App * list string) : App := r.1.2.
Definition output {A} (r : (Py.exn + A) * App * list string) : list string := r.2.
Definition exec {A} (m : M A) (st : App) : App := final (m st).

(** ** tkinter *)

(** Python callbacks called from Tk go through tkinter's [CallWrapper], which
    reports an exception (on standard error) and returns normally. *)
Definition CallWrapper (m : M unit) : M unit := λ st,
  match m st with
  | (inl _, st', out) => (inr tt, st', out)
  | r => r
  end.

(** [Variable.__init__]: the Tcl variable is named after a global counter. *)
Definition new_variable_name : M string :=
  st ← get;
  modify (set_varnum (S (varnum st)));;
  mret ("PY_VAR" +:+ Py.str_int (Z.of_nat (varnum st))).

Definition StringVar_set (name value : string) : M unit :=
  modify (λ st, set_string_vars (<[name := value]> (string_vars st)) st).

(** [tk.StringVar(value=...)]; the result is the Tcl name of the variable. *)
Definition StringVar (value : string) : M string :=
  name ← new_variable_name;
  StringVar_set name value;;
  mret name.

(** [Variable.__del__], run when the last reference to the Python object goes
    away: the Tcl variable is unset. *)
Definition StringVar_del (name : string) : M unit :=
  modify (λ st, set_string_vars (delete name (string_vars st)) st).

Definition DoubleVar_new (value : float) : M DoubleVar :=
  new_variable_name;;
  mret {| dv_value := value; dv_trace := [] |}.

Definition IntVar_new (value : Z) : M IntVar :=
  new_variable_name;;
  mret {| iv_value := PyInt value; iv_trace := [] |}.

(** [IntVar.get]: [getint], and for a value that is not an integer
    [int(getdouble(value))]. *)
Definition getint (value : pynum) : Py.exn + Z :=
  match value with
  | PyInt z => inr z
  | PyFloat x => Py.int_float x
  end.

Definition IntVar_get (var : IntVar) : M Z := from_sum (getint (iv_value var)).

(** [ttk.Label(parent, textvariable=..., ...)] and [label.configure(text=...)]. *)
Definition Label_new (ref : string) (textvariable : option string) : M unit :=
  modify (λ st,
    set_labels (<[ref := {| lbl_text := ""; lbl_textvariable := textvariable |}]> (labels st)) st).

Definition Label_configure_text (ref text : string) : M unit :=
  modify (λ st,
    set_labels
      (alter (λ l, {| lbl_text := text; lbl_textvariable := lbl_textvariable l |}) ref
         (labels st)) st).

(** What a label shows.  Tk: [-text] is the string displayed in the widget
    unless overridden by [-textvariable]; [-textvariable] names a variable
    whose value is used in place of [-text].  A ttk label whose variable is
    unset shows the empty string. *)
Definition Label_displayed (st : App) (l : Label) : string :=
  match lbl_textvariable l with
  | Some x => default "" (string_vars st !! x)
  | None => lbl_text l
  end.

Definition displayed (st : App) (ref : string) : option string :=
  Label_displayed st <$> labels st !! ref.

(** [btn.state(['pressed'])] and [btn.state(['!pressed'])]. *)
Definition Button_state_pressed (on : bool) (b : Button) : Button :=
  {| btn_text := btn_text b; btn_command := btn_command b;
     btn_pressed := on; btn_original_text := btn_original_text b |}.

Definition Button_configure_text (text : string) (b : Button) : Button :=
  {| btn_text := text; btn_command := btn_command b;
     btn_pressed := btn_pressed b; btn_original_text := btn_original_text b |}.

Definition Button_configure_command (c : Command) (b : Button) : Button :=
  {| btn_text := btn_text b; btn_command := Some c;
     btn_pressed := btn_pressed b; btn_original_text := btn_original_text b |}.

(** The packer.  [pack] appends a widget that is not managed yet to the
    packing list of its parent; [forget] removes it.  Callbacks run from the
    main loop with the window on screen, where a frame of [prop_inner] is
    viewable exactly when the packer manages it. *)
Definition pack (w : Frame) (slaves : list Frame) : list Frame :=
  if bool_decide (w ∈ slaves) then slaves else (slaves ++ [w])%list.

Definition forget (w : Frame) (slaves : list Frame) : list Frame :=
  filter (λ w', w' ≠ w) slaves.

Definition winfo_viewable (w : Frame) (st : App) : bool :=
  bool_decide (w ∈ prop_inner_slaves st).

(** ** The callbacks of the script *)

Definition nl : string := String (Ascii.ascii_of_nat 10) "".

(** [status_var.set(value)]: the global has to be bound. *)
Definition status_var_set (value : string) : M unit :=
  st ← get;
  name ← from_option (Py.NameError "status_var") (status_var st);
  StringVar_set name value.

Definition placeholder_action (action_name : string) : M unit :=
  status_var_set ("Action: " +:+ action_name);;
  print ("[PLACEHOLDER] " +:+ action_name).

(** The loop over [toolbar_buttons.items()] visits every entry once and sets
    its [pressed] flag from the comparison of its key. *)
Definition select_tool (tool_name : string) : M unit :=
  modify (set_current_tool (Some tool_name));;
  modify (λ st,
    set_toolbar_buttons
      (map_imap (λ name btn,
         Some (Button_state_pressed (bool_decide (name = tool_name)) btn))
         (toolbar_buttons st)) st);;
  status_var_set ("Selected tool: " +:+ tool_name);;
  print ("Selected tool: " +:+ tool_name).

Definition cut_tool : M unit := placeholder_action "Cut Tool used".
Definition move_tool : M unit := placeholder_action "Move Tool used".
Definition add_text_tool : M unit := placeholder_action "Add Text Tool used".

Definition adjust_tool : M unit :=
  placeholder_action "Adjust Tool selected";;
  select_tool "Adjust".

(** [filename] is what the file dialog returned: the chosen path, or the
    empty string when the dialog was cancelled. *)
Definition import_video (filename : string) : M unit :=
  if String.eqb filename "" then mret tt
  else placeholder_action ("Imported video: " +:+ filename).

Definition export_video (filename : string) : M unit :=
  if String.eqb filename "" then mret tt
  else placeholder_action ("Exported video to: " +:+ filename).

Definition update_adjustment (var_name : string) : M unit :=
  st ← get;
  var ← from_option (Py.KeyError var_name) (adjustments_vars st !! var_name);
  let val := dv_value var in
  status_var_set (Py.capitalize var_name +:+ ": " +:+ Py.format_2f val);;
  print ("[ADJUST] " +:+ var_name +:+ " = " +:+ Py.format_2f val).

(** [val] is an [int] already, so [int(val)] is [val]. *)
Definition update_color (var_name : string) : M unit :=
  st ← get;
  var ← from_option (Py.KeyError var_name) (color_vars st !! var_name);
  val ← IntVar_get var;
  status_var_set (Py.upper var_name +:+ ": " +:+ Py.str_int val);;
  print ("[COLOR] " +:+ Py.upper var_name +:+ " = " +:+ Py.str_int val).

Definition toggle_btn_configure (toggle_btn prefix : string) : M unit :=
  st ← get;
  btn ← from_option (Py.NameError toggle_btn) (buttons st !! toggle_btn);
  original_text ← from_option (Py.AttributeError "original_text") (btn_original_text btn);
  modify (set_buttons
    (<[toggle_btn := Button_configure_text (prefix +:+ original_text) btn]> (buttons st))).

Definition toggle_frame (frame_container : Frame) (toggle_btn : string) : M unit :=
  st ← get;
  if winfo_viewable frame_container st then
    modify (set_prop_inner_slaves (forget frame_container (prop_inner_slaves st)));;
    toggle_btn_configure toggle_btn "‚ñ∫ "
  else
    modify (set_prop_inner_slaves (pack frame_container (prop_inner_slaves st)));;
    toggle_btn_configure toggle_btn "‚ñº ".

(** The value-label updaters returned by [make_updater] and
    [make_color_updater]. *)
Definition run_callback (cb : Callback) : M unit :=
  match cb with
  | updater v dest_label =>
      st ← get;
      var ← from_option (Py.KeyError v) (adjustments_vars st !! v);
      Label_configure_text dest_label (Py.format_2f (dv_value var))
  | color_updater v dest_label =>
      st ← get;
      var ← from_option (Py.KeyError v) (color_vars st !! v);
      val ← IntVar_get var;
      Label_configure_text dest_label (Py.str_int val)
  end.

(** Writing a traced variable: the value is stored, then every ['write']
    trace runs. *)
Definition DoubleVar_set (key : string) (value : float) : M unit :=
  st ← get;
  var ← from_option (Py.KeyError key) (adjustments_vars st !! key);
  modify (set_adjustments_vars
    (<[key := {| dv_value := value; dv_trace := dv_trace var |}]> (adjustments_vars st)));;
  for_each (dv_trace var) (λ cb, CallWrapper (run_callback cb)).

Definition IntVar_set (key : string) (value : pynum) : M unit :=
  st ← get;
  var ← from_option (Py.KeyError key) (color_vars st !! key);
  modify (set_color_vars
    (<[key := {| iv_value := value; iv_trace := iv_trace var |}]> (color_vars st)));;
  for_each (iv_trace var) (λ cb, CallWrapper (run_callback cb)).

Definition draw_preview_placeholder (w h : Z) : M unit :=
  modify (set_preview_canvas
    [rectangle 10 10 (w - 10) (h - 10);
     canvas_text (w / 2) (h / 2) ("Video Preview" +:+ nl +:+ "(placeholder)")]).

Definition resize_timeline_canvas (height : Z) : M unit :=
  modify (set_timeline_window_height (Some height)).

Definition call (filename : string) (f : PyFun) : M unit :=
  match f with
  | fn_cut_tool => cut_tool
  | fn_move_tool => move_tool
  | fn_add_text_tool => add_text_tool
  | fn_adjust_tool => adjust_tool
  | fn_import_video => import_video filename
  | fn_export_video => export_video filename
  end.

(** Running a [command=]; [filename] is the answer of the file dialog, should
    the command open one. *)
Definition run_command (filename : string) (c : Command) : M unit :=
  match c with
  | call_fun f => call filename f
  | lambda_toolbar command name => call filename command;; select_tool name
  | lambda_placeholder action_name => placeholder_action action_name
  | root_quit => modify (set_quit_requested true)
  | lambda_showinfo _ _ => mret tt
  | lambda_toggle frame_container toggle_btn => toggle_frame frame_container toggle_btn
  end.

(** ** Construction: the module-level statements of the script *)

Definition make_toolbar_button (name emoji : string) (command : PyFun) : M unit :=
  let btn := {| btn_text := emoji +:+ nl +:+ name;
                btn_command := Some (lambda_toolbar command name);
                btn_pressed := false; btn_original_text := None |} in
  modify (λ st, set_toolbar_buttons (<[name := btn]> (toolbar_buttons st)) st).

Definition new_button (ref text : string) (command : option Command) : M unit :=
  let btn := {| btn_text := text; btn_command := command;
                btn_pressed := false; btn_original_text := None |} in
  modify (λ st, set_buttons (<[ref := btn]> (buttons st)) st).

Definition set_original_text (ref original_text : string) : M unit :=
  modify (λ st, set_buttons
    (alter (λ b, {| btn_text := btn_text b; btn_command := btn_command b;
                    btn_pressed := btn_pressed b;
                    btn_original_text := Some original_text |}) ref (buttons st)) st).

Definition configure_command (ref : string) (c : Command) : M unit :=
  modify (λ st, set_buttons (alter (Button_configure_command c) ref (buttons st)) st).

Definition pack_prop_inner (w : Frame) : M unit :=
  modify (λ st, set_prop_inner_slaves (pack w (prop_inner_slaves st)) st).

(** [range(n)]. *)
Definition range (n : nat) : list Z := Z.of_nat <$> seq 0 n.

Definition clip_text (i : Z) : string :=
  "Clip " +:+ Py.str_int (i + 1) +:+ nl +:+ "00:0" +:+ Py.str_int i +:+ ":00".

Definition populate_timeline : M unit :=
  for_each (range 12) (λ i,
    modify (λ st, set_timeline_inner
      (timeline_inner st ++ [{| blk_row := 0; blk_column := i; blk_text := clip_text i |}])%list
      st)).

(** The references of the value labels, which the script keeps only inside
    the updater closures. *)
Definition adjust_val_lbl (name : string) : string := "adjust_frame." +:+ name +:+ ".val_lbl".
Definition color_val_lbl (name : string) : string := "color_frame." +:+ name +:+ ".val_lbl".

Definition adjustment_names : list string :=
  ["brightness"; "contrast"; "shadows"; "highlights"; "whites"; "blacks"; "levels"].

(** One turn of the loop that builds the adjustment sliders.  The
    [StringVar] made for [textvariable=] is referenced by no Python name, so
    it is deleted as soon as the label constructor has returned. *)
Definition build_adjustment_slider (name : string) : M unit :=
  var ← DoubleVar_new (if String.eqb name "levels" then 1%float else 0%float);
  modify (λ st, set_adjustments_vars (<[name := var]> (adjustments_vars st)) st);;
  text ← StringVar (Py.str_float (dv_value var));
  Label_new (adjust_val_lbl name) (Some text);;
  StringVar_del text;;
  modify (λ st, set_adjustments_vars
    (alter (λ v, {| dv_value := dv_value v;
                    dv_trace := (dv_trace v ++ [updater name (adjust_val_lbl name)])%list |})
       name (adjustments_vars st)) st).

Definition build_color_slider (name : string) : M unit :=
  var ← IntVar_new 128;
  modify (λ st, set_color_vars (<[name := var]> (color_vars st)) st);;
  val ← IntVar_get var;
  text ← StringVar (Py.str_int val);
  Label_new (color_val_lbl name) (Some text);;
  StringVar_del text;;
  modify (λ st, set_color_vars
    (alter (λ v, {| iv_value := iv_value v;
                    iv_trace := (iv_trace v ++ [color_updater name (color_val_lbl name)])%list |})
       name (color_vars st)) st).

(** Everything up to and including the status bar. *)
Definition build_ui : M unit :=
  modify (set_current_tool None);;
  make_toolbar_button "Cut" "‚úÇÔ∏è" fn_cut_tool;;
  make_toolbar_button "Move" "üñ±Ô∏è" fn_move_tool;;
  make_toolbar_button "Add Text" "üÖ∞Ô∏è" fn_add_text_tool;;
  make_toolbar_button "Adjust" "‚öôÔ∏è" fn_adjust_tool;;
  new_button "imp_btn" ("üìÅ" +:+ nl +:+ "Import") (Some (call_fun fn_import_video));;
  new_button "exp_btn" ("üíæ" +:+ nl +:+ "Export") (Some (call_fun fn_export_video));;
  populate_timeline;;
  pack_prop_inner adjust_header;;
  new_button "adjust_toggle" "‚ñº Adjustments" None;;
  set_original_text "adjust_toggle" "Adjustments";;
  pack_prop_inner adjust_frame;;
  for_each adjustment_names build_adjustment_slider;;
  configure_command "adjust_toggle" (lambda_toggle adjust_frame "adjust_toggle");;
  pack_prop_inner color_header;;
  new_button "color_toggle" "‚ñº Color Mixer" None;;
  set_original_text "color_toggle" "Color Mixer";;
  pack_prop_inner color_frame;;
  for_each ["r"; "g"; "b"] build_color_slider;;
  configure_command "color_toggle" (lambda_toggle color_frame "color_toggle");;
  name ← StringVar "Ready";
  modify (set_status_var (Some name));;
  Label_new "status_bar" (Some name).

(** The whole script, up to the call of [root.mainloop()]. *)
Definition startup : M unit :=
  build_ui;;
  select_tool "Move".

(** The state in which the main loop starts. *)
Definition init : App := Eval vm_compute in exec startup empty_app.

(** ** The main loop: events and their dispatch *)

(** The entries of the menu bar, by label, and the playback buttons under the
    preview, by text. *)
Definition menubar : list (string * Command) :=
  [("New Project", lambda_placeholder "New Project");
   ("Open...", lambda_placeholder "Open Project");
   ("Save", lambda_placeholder "Save Project");
   ("Exit", root_quit);
   ("Undo", lambda_placeholder "Undo");
   ("Redo", lambda_placeholder "Redo");
   ("About", lambda_showinfo "About"
      ("MiniVideo ‚Äî Prototype" +:+ nl +:+ "Tkinter Video Editor GUI"))].

Definition controls_frame : list (string * Command) :=
  [("‚èÆÔ∏è Prev", lambda_placeholder "Prev Frame");
   ("‚èØÔ∏è Play/Pause", lambda_placeholder "Play/Pause");
   ("‚è≠Ô∏è Next", lambda_placeholder "Next Frame")].

Inductive Widget :=
| menu_entry (label : string)
| control_button (text : string)
| toolbar_button (name : string)
| named_button (ref : string).

Definition command_of (st : App) (w : Widget) : option Command :=
  match w with
  | menu_entry label => (list_to_map menubar : gmap string Command) !! label
  | control_button text => (list_to_map controls_frame : gmap string Command) !! text
  | toolbar_button name => toolbar_buttons st !! name ≫= btn_command
  | named_button ref => buttons st !! ref ≫= btn_command
  end.

(** The events are those that reach a callback of the script.  The pointer
    events that the class bindings of ttk buttons handle on their own
    (press, release, leaving and entering with the button held), which set
    and clear the [pressed] flag of the button under the pointer while a
    click is in progress, are not events of this model: [btn_pressed] is the
    flag as [select_tool] last wrote it. *)
Inductive Event :=
| invoke (w : Widget) (filename : string)
    (** a button or menu entry is activated; [filename] is the answer the
        user gives should a file dialog open *)
| scale_adjustment (name : string) (value : float)
    (** the slider of an adjustment is moved to [value] *)
| scale_color (name : string) (value : float)
| key_control_q
| key_control_s
| configure_preview_canvas (w h : Z)
| configure_timeline_canvas (height : Z)
| configure_prop_inner.

(** A [ttk.Scale] that moves writes its variable, which runs the traces, and
    then calls its command. *)
Definition handle (ev : Event) : M unit :=
  match ev with
  | invoke w filename =>
      st ← get;
      match command_of st w with
      | Some c => CallWrapper (run_command filename c)
      | None => mret tt
      end
  | scale_adjustment name value =>
      CallWrapper (DoubleVar_set name value);;
      CallWrapper (update_adjustment name)
  | scale_color name value =>
      CallWrapper (IntVar_set name (PyFloat value));;
      CallWrapper (update_color name)
  | key_control_q => modify (set_quit_requested true)
  | key_control_s => CallWrapper (placeholder_action "Save Project")
  | configure_preview_canvas w h => CallWrapper (draw_preview_placeholder w h)
  | configure_timeline_canvas height => CallWrapper (resize_timeline_canvas height)
  | configure_prop_inner => mret tt
  end.

Definition step (st : App) (ev : Event) : App := exec (handle ev) st.

Definition run (evs : list Event) (st : App) : App := foldl step st evs.

(** The states the program can be in while the main loop runs. *)
Inductive reachable : App → Prop :=
| reachable_init : reachable init
| reachable_step st ev : reachable st → reachable (step st ev).

(** The text of the status bar variable. *)
Definition status_text (st : App) : option string :=
  status_var st ≫= λ name, string_vars st !! name.

(** * Properties *)

(** ** Vocabulary *)

(** Writing [text] into the status variable [name]. *)
Definition write_status (name text : string) (st : App) : App :=
  set_string_vars (<[name := text]> (string_vars st)) st.

(** [st'] agrees with [st] on everything but the text held by the status
    variable. *)
Definition unchanged_except_status (st st' : App) : Prop :=
  varnum st' = varnum st ∧
  status_var st' = status_var st ∧
  current_tool st' = current_tool st ∧
  toolbar_buttons st' = toolbar_buttons st ∧
  buttons st' = buttons st ∧
  labels st' = labels st ∧
  adjustments_vars st' = adjustments_vars st ∧
  color_vars st' = color_vars st ∧
  prop_inner_slaves st' = prop_inner_slaves st ∧
  timeline_inner st' = timeline_inner st ∧
  preview_canvas st' = preview_canvas st ∧
  timeline_window_height st' = timeline_window_height st ∧
  quit_requested st' = quit_requested st ∧
  ∀ name, status_var st ≠ Some name → string_vars st' !! name = string_vars st !! name.

(** The part of the state that the construction fixes: which variable backs
    the status bar, which Tcl variables exist, the command of every button,
    the variable of every label, the traces of every slider variable, and the
    blocks of the timeline. *)
Record Wiring := {
  w_status_var : option string;
  w_string_vars : gset string;
  w_toolbar : gmap string (option Command);
  w_buttons : gmap string (option Command * option string);
  w_labels : gmap string (option string);
  w_adjustments : gmap string (list Callback);
  w_colors : gmap string (list Callback);
  w_timeline : list Block
}.

Definition wiring (st : App) : Wiring := {|
  w_status_var := status_var st;
  w_string_vars := dom (string_vars st);
  w_toolbar := btn_command <$> toolbar_buttons st;
  w_buttons := (λ b, (btn_command b, btn_original_text b)) <$> buttons st;
  w_labels := lbl_textvariable <$> labels st;
  w_adjustments := dv_trace <$> adjustments_vars st;
  w_colors := iv_trace <$> color_vars st;
  w_timeline := timeline_inner st
|}.

Definition wired (st : App) : Prop := wiring st = wiring init.

(** A computation that keeps the wiring of a wired state. *)
Definition preserves {A} (m : M A) : Prop := ∀ st, wired st → wired (final (m st)).

(** The [pressed] flags after the loop of [select_tool]. *)
Definition press (tool_name : string) (m : gmap string Button) : gmap string Button :=
  map_imap (λ name btn,
    Some (Button_state_pressed (bool_decide (name = tool_name)) btn)) m.

(** The state [select_tool tool_name] leaves, [name] being the status
    variable. *)
Definition selected (name tool_name : string) (st : App) : App :=
  write_status name ("Selected tool: " +:+ tool_name)
    (set_toolbar_buttons (press tool_name (toolbar_buttons st))
       (set_current_tool (Some tool_name) st)).

(** Exactly the toolbar button named [t] is pressed, [t] is the current
    tool, and the status bar says so. *)
Definition exclusive_selection (t : string) (st : App) : Prop :=
  current_tool st = Some t ∧
  status_text st = Some ("Selected tool: " +:+ t) ∧
  (∃ b, toolbar_buttons st !! t = Some b ∧ btn_pressed b = true) ∧
  (∀ n b, toolbar_buttons st !! n = Some b → n ≠ t → btn_pressed b = false).

(** The four tool buttons: name, handler, and the action the handler reports. *)
Definition tool_buttons : list (string * (M unit * string)) :=
  [("Cut", (cut_tool, "Cut Tool used"));
   ("Move", (move_tool, "Move Tool used"));
   ("Add Text", (add_text_tool, "Add Text Tool used"));
   ("Adjust", (adjust_tool, "Adjust Tool selected"))].

(** A click on the toolbar button [click.1]; [click.2] is the answer a file
    dialog would get. *)
Definition tool_click (click : string * string) : Event :=
  invoke (toolbar_button click.1) click.2.

Definition is_toolbar_command (name : string) (b : Button) : bool :=
  match btn_command b with
  | Some (lambda_toolbar _ name') => String.eqb name name'
  | _ => false
  end.

(** The block the timeline shows in column [i]. *)
Definition clip_block (i : Z) : Block :=
  {| blk_row := 0; blk_column := i;
     blk_text := "Clip " +:+ Py.str_int (i + 1) +:+ nl +:+
                 "00:0" +:+ Py.str_int i +:+ ":00" |}.

(** The collapsible sections: header button, body frame, title. *)
Definition sections : list (string * Frame * string) :=
  [("adjust_toggle", adjust_frame, "Adjustments");
   ("color_toggle", color_frame, "Color Mixer")].

(** [st'] agrees with [st] on everything but the packing list of
    [prop_inner] and the header buttons. *)
Definition unchanged_except_sections (st st' : App) : Prop :=
  varnum st' = varnum st ∧
  string_vars st' = string_vars st ∧
  status_var st' = status_var st ∧
  current_tool st' = current_tool st ∧
  toolbar_buttons st' = toolbar_buttons st ∧
  labels st' = labels st ∧
  adjustments_vars st' = adjustments_vars st ∧
  color_vars st' = color_vars st ∧
  timeline_inner st' = timeline_inner st ∧
  preview_canvas st' = preview_canvas st ∧
  timeline_window_height st' = timeline_window_height st ∧
  quit_requested st' = quit_requested st.

(** The state [toggle_frame frame_container toggle_btn] leaves when the
    button [b] behind [toggle_btn] carries the title [title]. *)
Definition toggled (frame_container : Frame) (toggle_btn title : string) (b : Button)
    (st : App) : App :=
  if winfo_viewable frame_container st then
    set_buttons
      (<[toggle_btn := Button_configure_text ("‚ñ∫ " +:+ title) b]> (buttons st))
      (set_prop_inner_slaves (forget frame_container (prop_inner_slaves st)) st)
  else
    set_buttons
      (<[toggle_btn := Button_configure_text ("‚ñº " +:+ title) b]> (buttons st))
      (set_prop_inner_slaves (pack frame_container (prop_inner_slaves st)) st).

(** The widgets that carry a command: the buttons and menu entries of the
    user interface. *)
Definition is_button (w : Widget) : Prop := is_Some (command_of init w).

(** Activating [w] updates the status text: whatever the status bar showed
    before, afterwards it shows a text fixed by the widget (and by the
    answer of the file dialog). *)
Definition updates_status (w : Widget) (filename : string) : Prop :=
  ∃ text, ∀ st, reachable st → status_text (step st (invoke w filename)) = Some text.

(** Activating [w] leaves the status text as it was. *)
Definition leaves_status (w : Widget) (filename : string) : Prop :=
  ∀ st, reachable st → status_text (step st (invoke w filename)) = status_text st.

(** The widgets whose command writes the status text: every toolbar tool
    button, every playback button, the menu entries other than Exit and
    About, and Import and Export when the dialog returns a path. *)
Definition writes_status (w : Widget) (filename : string) : bool :=
  match w with
  | toolbar_button _ => true
  | control_button _ => true
  | menu_entry label => negb (String.eqb label "Exit" || String.eqb label "About")
  | named_button ref =>
      (String.eqb ref "imp_btn" || String.eqb ref "exp_btn")
      && negb (String.eqb filename "")
  end.

(** A computation that leaves the part [proj] of the state as it is,
    whatever the state. *)
Definition stable {T A} (proj : App → T) (m : M A) : Prop :=
  ∀ st, proj (final (m st)) = proj st.

(** The tool selection: the current tool and the toolbar buttons. *)
Definition selection (st : App) : option string * gmap string Button :=
  (current_tool st, toolbar_buttons st).

(** The collapsible sections: the packing list and the header buttons. *)
Definition panel (st : App) : list Frame * gmap string Button :=
  (prop_inner_slaves st, buttons st).

(** The sliders: their variables and value labels. *)
Definition sliders (st : App)
    : gmap string DoubleVar * gmap string IntVar * gmap string Label :=
  (adjustments_vars st, color_vars st, labels st).

(** The two canvases and the timeline blocks. *)
Definition canvases (st : App) : list CanvasItem * option Z * list Block :=
  (preview_canvas st, timeline_window_height st, timeline_inner st).

(** The command an event runs, if it activates a widget. *)
Definition command_at (st : App) (ev : Event) : option Command :=
  match ev with
  | invoke w _ => command_of st w
  | _ => None
  end.

Definition selects (c : Command) : bool :=
  match c with
  | lambda_toolbar _ _ | call_fun fn_adjust_tool => true
  | _ => false
  end.

Definition toggles (c : Command) : bool :=
  match c with lambda_toggle _ _ => true | _ => false end.

Definition quits (c : Command) : bool :=
  match c with root_quit => true | _ => false end.

Definition is_scale (ev : Event) : bool :=
  match ev with scale_adjustment _ _ | scale_color _ _ => true | _ => false end.

(** The names of the tool buttons of the toolbar. *)
Definition tool_names : list string := ["Cut"; "Move"; "Add Text"; "Adjust"].

(** The current tool after an event, given the current tool before it. *)
Definition tool_after (t : string) (ev : Event) : string :=
  match ev with
  | invoke (toolbar_button n) _ => if bool_decide (n ∈ tool_names) then n else t
  | _ => t
  end.

(** The header of every section carries the prefix that matches whether its
    frame is viewable. *)
Definition headers_consistent (st : App) : Prop :=
  ∀ toggle frame title, (toggle, frame, title) ∈ sections →
    btn_text <$> buttons st !! toggle
      = Some ((if winfo_viewable frame st then "‚ñº " else "‚ñ∫ ") +:+ title).

(** What [draw_preview_placeholder] draws on a canvas of size [w] by [h]. *)
Definition placeholder_drawing (w h : Z) : list CanvasItem :=
  [rectangle 10 10 (w - 10) (h - 10);
   canvas_text (w / 2) (h / 2) ("Video Preview" +:+ nl +:+ "(placeholder)")].

(** The events that ask the main loop to stop: Control-q, and activating a
    widget whose command is [root.quit]. *)
Definition quit_event (st : App) (ev : Event) : bool :=
  match ev with
  | key_control_q => true
  | _ => match command_at st ev with Some c => quits c | None => false end
  end.

(** What the preview canvas holds after an event, given what it held. *)
Definition preview_after (items : list CanvasItem) (ev : Event) : list CanvasItem :=
  match ev with
  | configure_preview_canvas w h => placeholder_drawing w h
  | _ => items
  end.

(** ** Running computations *)

Ltac munfold :=
  cbv [mbind M_bind mret M_ret get modify print raise from_option from_sum
       CallWrapper result final output exec].

Ltac fields :=
  cbn [varnum string_vars status_var current_tool toolbar_buttons buttons labels
       adjustments_vars color_vars prop_inner_slaves timeline_inner preview_canvas
       timeline_window_height quit_requested
       set_varnum set_string_vars set_status_var set_current_tool
       set_toolbar_buttons set_buttons set_labels set_adjustments_vars
       set_color_vars set_prop_inner_slaves set_timeline_inner set_preview_canvas
       set_timeline_window_height set_quit_requested fst snd app].

(** ** Checks on concrete inputs *)

Example format_2f_checks :
  Py.format_2f 1.5%float = "1.50" ∧ Py.format_2f 0.125%float = "0.12" ∧
  Py.format_2f 0.375%float = "0.38" ∧ Py.format_2f (-100)%float = "-100.00" ∧
  Py.format_2f (-0)%float = "-0.00".
Proof. repeat split; vm_compute; reflexivity. Qed.

Example str_float_checks :
  Py.str_float 0%float = "0.0" ∧ Py.str_float 1%float = "1.0" ∧
  Py.str_float (-12.25)%float = "-12.25".
Proof. repeat split; vm_compute; reflexivity. Qed.

Example capitalize_checks :
  Py.capitalize "brightness" = "Brightness" ∧ Py.upper "r" = "R" ∧
  Py.capitalize "aB cD" = "Ab cd".
Proof. repeat split; reflexivity. Qed.

Example getint_checks :
  getint (PyInt 128) = inr 128 ∧ getint (PyFloat 200.5%float) = inr 200 ∧
  getint (PyFloat (-3.75)%float) = inr (-3).
Proof. repeat split; vm_compute; reflexivity. Qed.

Example clip_text_checks :
  clip_text 0 = "Clip 1" +:+ nl +:+ "00:00:00" ∧
  clip_text 11 = "Clip 12" +:+ nl +:+ "00:011:00".
Proof. split; vm_compute; reflexivity. Qed.

(** A slider moved by the user: the variable is written, the status bar
    reports it. *)
Example scale_adjustment_check :
  let st := step init (scale_adjustment "contrast" 42.25%float) in
  dv_value <$> adjustments_vars st !! "contrast" = Some 42.25%float ∧
  status_text st = Some "Contrast: 42.25".
Proof. split; vm_compute; reflexivity. Qed.

Example scale_color_check :
  let st := step init (scale_color "b" 200.5%float) in
  iv_value <$> color_vars st !! "b" = Some (PyFloat 200.5%float) ∧
  status_text st = Some "B: 200".
Proof. split; vm_compute; reflexivity. Qed.

Lemma write_status_text name text st :
  status_var st = Some name → status_text (write_status name text st) = Some text.
Proof.
  intros H. unfold status_text, write_status. fields. rewrite H. cbn.
  apply lookup_insert_eq.
Qed.

Lemma write_status_unchanged name text st :
  status_var st = Some name → unchanged_except_status st (write_status name text st).
Proof.
  intros H. unfold unchanged_except_status, write_status. fields.
  repeat split. intros y Hy. apply lookup_insert_ne. congruence.
Qed.

Lemma unchanged_except_status_refl st : unchanged_except_status st st.
Proof. unfold unchanged_except_status. repeat split. Qed.

Lemma status_var_set_run text st name :
  status_var st = Some name →
  status_var_set text st = (inr tt, write_status name text st, []).
Proof.
  intros H. unfold status_var_set, StringVar_set. munfold. rewrite H. reflexivity.
Qed.

Lemma placeholder_action_run action_name st name :
  status_var st = Some name →
  placeholder_action action_name st =
    (inr tt, write_status name ("Action: " +:+ action_name) st,
     ["[PLACEHOLDER] " +:+ action_name]).
Proof.
  intros H. unfold placeholder_action. unfold mbind, M_bind.
  rewrite (status_var_set_run _ _ _ H). reflexivity.
Qed.

(** ** Placeholder actions *)

Lemma placeholder_action_effect (action_name : string) (st : App) (name : string) :
  status_var st = Some name →
  let r := placeholder_action action_name st in
  result r = inr tt ∧
  status_text (final r) = Some ("Action: " +:+ action_name) ∧
  unchanged_except_status st (final r) ∧
  output r = ["[PLACEHOLDER] " +:+ action_name].
Proof.
  intros H r. subst r. rewrite (placeholder_action_run _ _ _ H).
  cbv [result final output]. cbn [fst snd].
  auto using write_status_text, write_status_unchanged.
Qed.

(** C5. For every action name, [placeholder_action] returns normally, sets
    the status text to ["Action: "] followed by the name, prints one line to
    the console, and leaves every other part of the program state as it was. *)
Theorem placeholder_action_spec (action_name : string) (st : App) (name : string) :
  status_var st = Some name →
  let r := placeholder_action action_name st in
  result r = inr tt ∧
  status_text (final r) = Some ("Action: " +:+ action_name) ∧
  unchanged_except_status st (final r) ∧
  output r = ["[PLACEHOLDER] " +:+ action_name].
Proof. exact (placeholder_action_effect action_name st name). Qed.

Lemma placeholder_action_spec_witness :
  status_var init = Some "PY_VAR20" ∧
  let r := placeholder_action "Undo" init in
  result r = inr tt ∧
  status_text (final r) = Some "Action: Undo" ∧
  unchanged_except_status init (final r) ∧
  output r = ["[PLACEHOLDER] Undo"].
Proof.
  split; [vm_compute; reflexivity |].
  apply (placeholder_action_spec "Undo" init "PY_VAR20"). vm_compute; reflexivity.
Defined.

(** ** Import and export *)

Lemma eqb_nonempty (p : string) : p ≠ "" → String.eqb p "" = false.
Proof. intros H. apply String.eqb_neq. exact H. Qed.

(** C6. The path chosen in the file dialog only ends up in the status text
    (and on the console): for a non-empty path [p], [import_video] puts
    ["Action: Imported video: p"] there and [export_video]
    ["Action: Exported video to: p"], with the rest of the state untouched;
    for the empty answer of a cancelled dialog both leave the whole state,
    status text included, as it was and print nothing. *)
Theorem import_export_spec (p : string) (st : App) (name : string) :
  status_var st = Some name →
  (p ≠ "" →
     let ri := import_video p st in
     let re := export_video p st in
     (result ri = inr tt ∧
      status_text (final ri) = Some ("Action: Imported video: " +:+ p) ∧
      unchanged_except_status st (final ri) ∧
      output ri = ["[PLACEHOLDER] Imported video: " +:+ p]) ∧
     (result re = inr tt ∧
      status_text (final re) = Some ("Action: Exported video to: " +:+ p) ∧
      unchanged_except_status st (final re) ∧
      output re = ["[PLACEHOLDER] Exported video to: " +:+ p])) ∧
  import_video "" st = (inr tt, st, []) ∧
  export_video "" st = (inr tt, st, []).
Proof.
  intros H. split; [| split; reflexivity].
  intros Hp ri re. subst ri re. unfold import_video, export_video.
  rewrite (eqb_nonempty _ Hp).
  split.
  - apply (placeholder_action_effect ("Imported video: " +:+ p) st name H).
  - apply (placeholder_action_effect ("Exported video to: " +:+ p) st name H).
Qed.

Lemma import_export_spec_witness :
  status_text (exec (import_video "/tmp/clip.mp4") init)
    = Some "Action: Imported video: /tmp/clip.mp4" ∧
  status_text (exec (export_video "/tmp/out.mp4") init)
    = Some "Action: Exported video to: /tmp/out.mp4" ∧
  exec (import_video "") init = init ∧
  exec (export_video "") init = init.
Proof.
  assert (Hs : status_var init = Some "PY_VAR20") by (vm_compute; reflexivity).
  destruct (import_export_spec "/tmp/clip.mp4" init "PY_VAR20" Hs) as [Hp _].
  destruct (import_export_spec "/tmp/out.mp4" init "PY_VAR20" Hs) as [Hq [Hi He]].
  destruct (Hp ltac:(discriminate)) as [(_ & Ha & _) _].
  destruct (Hq ltac:(discriminate)) as [_ (_ & Hb & _)].
  unfold exec. rewrite Hi, He. repeat split; assumption.
Defined.

(** ** Slider change handlers *)

(** C4. For an adjustment slider [n] whose variable holds [v],
    [update_adjustment n] sets the status text to [n] capitalized, [": "] and
    [v] with two decimals; for a color slider [n] whose variable reads as the
    integer [v], [update_color n] sets it to [n] upper-cased, [": "] and [v].
    Both return normally, print one console line and change nothing else in
    the program state. *)
Theorem update_handlers_spec (st : App) (name : string) :
  status_var st = Some name →
  (∀ n var, adjustments_vars st !! n = Some var →
     let r := update_adjustment n st in
     result r = inr tt ∧
     status_text (final r)
       = Some (Py.capitalize n +:+ ": " +:+ Py.format_2f (dv_value var)) ∧
     unchanged_except_status st (final r) ∧
     output r = ["[ADJUST] " +:+ n +:+ " = " +:+ Py.format_2f (dv_value var)]) ∧
  (∀ n var v, color_vars st !! n = Some var → getint (iv_value var) = inr v →
     let r := update_color n st in
     result r = inr tt ∧
     status_text (final r) = Some (Py.upper n +:+ ": " +:+ Py.str_int v) ∧
     unchanged_except_status st (final r) ∧
     output r = ["[COLOR] " +:+ Py.upper n +:+ " = " +:+ Py.str_int v]).
Proof.
  intros H. split.
  - intros n var Hn r. subst r. unfold update_adjustment.
    cbv [mbind M_bind get from_option mret M_ret]. rewrite Hn.
    rewrite (status_var_set_run _ _ _ H).
    cbv [result final output print]. cbn [fst snd app].
    auto using write_status_text, write_status_unchanged.
  - intros n var v Hn Hv r. subst r. unfold update_color, IntVar_get.
    cbv [mbind M_bind get from_option from_sum mret M_ret]. rewrite Hn, Hv.
    rewrite (status_var_set_run _ _ _ H).
    cbv [result final output print]. cbn [fst snd app].
    auto using write_status_text, write_status_unchanged.
Qed.

Lemma update_handlers_spec_witness :
  status_text (exec (update_adjustment "levels") init) = Some "Levels: 1.00" ∧
  status_text (exec (update_color "g") init) = Some "G: 128".
Proof.
  assert (Hs : status_var init = Some "PY_VAR20") by (vm_compute; reflexivity).
  destruct (update_handlers_spec init "PY_VAR20" Hs) as [Ha Hc].
  split.
  - refine (proj1 (proj2 (Ha "levels" {| dv_value := 1%float;
               dv_trace := [updater "levels" (adjust_val_lbl "levels")] |} _))).
    vm_compute; reflexivity.
  - refine (proj1 (proj2 (Hc "g" {| iv_value := PyInt 128;
               iv_trace := [color_updater "g" (color_val_lbl "g")] |} 128 _ _))).
    + vm_compute; reflexivity.
    + reflexivity.
Defined.

(** ** The wiring is invariant *)

Lemma final_CallWrapper (m : M unit) st : final (CallWrapper m st) = final (m st).
Proof. unfold CallWrapper. destruct (m st) as [[[e|[]] st'] out]; reflexivity. Qed.

Lemma preserves_ret {A} (x : A) : preserves (mret x).
Proof. intros st H. exact H. Qed.

Lemma preserves_raise {A} e : preserves (raise e : M A).
Proof. intros st H. exact H. Qed.

Lemma preserves_print line : preserves (print line).
Proof. intros st H. exact H. Qed.

Lemma preserves_get : preserves get.
Proof. intros st H. exact H. Qed.

Lemma preserves_from_option {A} e (o : option A) : preserves (from_option e o).
Proof. destruct o; [apply preserves_ret | apply preserves_raise]. Qed.

Lemma preserves_from_sum {A} (r : Py.exn + A) : preserves (from_sum r).
Proof. destruct r; [apply preserves_raise | apply preserves_ret]. Qed.

Lemma preserves_modify f : (∀ st, wiring (f st) = wiring st) → preserves (modify f).
Proof. intros Hf st H. unfold wired, modify, final. cbn. rewrite Hf. exact H. Qed.

Lemma preserves_bind {A B} (m : M A) (k : A → M B) :
  preserves m → (∀ x, preserves (k x)) → preserves (m ≫= k).
Proof.
  intros Hm Hk st H. specialize (Hm st H). unfold mbind, M_bind.
  destruct (m st) as [[[e|x] st'] out]; [exact Hm |].
  specialize (Hk x st' Hm). destruct (k x st') as [[r st''] out']. exact Hk.
Qed.

(** After [get] the continuation runs in the state it was handed. *)
Lemma preserves_get_bind {B} (k : App → M B) :
  (∀ st, wired st → wired (final (k st st))) → preserves (get ≫= k).
Proof.
  intros Hk st H. specialize (Hk st H). unfold mbind, M_bind, get.
  destruct (k st st) as [[r st'] out]. exact Hk.
Qed.

Lemma preserves_CallWrapper m : preserves m → preserves (CallWrapper m).
Proof. intros Hm st H. rewrite final_CallWrapper. auto. Qed.

Lemma preserves_for_each {A} (l : list A) body :
  (∀ x, preserves (body x)) → preserves (for_each l body).
Proof.
  intros Hb. induction l as [|x l IH]; cbn [for_each].
  - apply preserves_ret.
  - apply preserves_bind; auto.
Qed.

Create HintDb preserves.
#[local] Hint Resolve preserves_ret preserves_raise preserves_print preserves_get
  preserves_from_option preserves_from_sum preserves_bind preserves_CallWrapper
  preserves_for_each : preserves.

Lemma wired_status_var st : wired st → status_var st = Some "PY_VAR20".
Proof. intros H. apply (f_equal w_status_var) in H. exact H. Qed.

Lemma wired_string_vars st : wired st → dom (string_vars st) = {["PY_VAR20"]}.
Proof.
  intros H. apply (f_equal w_string_vars) in H. cbn [wiring w_string_vars] in H.
  rewrite H. vm_compute. reflexivity.
Qed.

Lemma fmap_insert_same {A B} (g : A → B) (m : gmap string A) k v v' :
  m !! k = Some v → g v' = g v → g <$> <[k := v']> m = g <$> m.
Proof.
  intros Hk Hg. apply map_eq. intros i. rewrite !lookup_fmap.
  destruct (decide (k = i)) as [->|Hne].
  - rewrite lookup_insert_eq, Hk. cbn. congruence.
  - rewrite lookup_insert_ne by exact Hne. reflexivity.
Qed.

Lemma fmap_alter_same {A B} (g : A → B) (f : A → A) (m : gmap string A) k :
  (∀ v, g (f v) = g v) → g <$> alter f k m = g <$> m.
Proof.
  intros Hg. apply map_eq. intros i. rewrite !lookup_fmap.
  destruct (decide (k = i)) as [->|Hne].
  - rewrite lookup_alter_eq. destruct (m !! i); cbn; congruence.
  - rewrite lookup_alter_ne by exact Hne. reflexivity.
Qed.

Lemma lookup_press tool_name (m : gmap string Button) n :
  press tool_name m !! n
    = Button_state_pressed (bool_decide (n = tool_name)) <$> m !! n.
Proof. unfold press. rewrite map_lookup_imap. destruct (m !! n); reflexivity. Qed.

Lemma fmap_press_command tool_name (m : gmap string Button) :
  btn_command <$> press tool_name m = btn_command <$> m.
Proof.
  apply map_eq. intros i. rewrite !lookup_fmap, lookup_press.
  destruct (m !! i); reflexivity.
Qed.

Lemma wiring_write_status name text st :
  name ∈ dom (string_vars st) → wiring (write_status name text st) = wiring st.
Proof.
  intros H. unfold wiring, write_status. fields. f_equal.
  rewrite dom_insert_L. apply subseteq_union_1_L, singleton_subseteq_l, H.
Qed.

Lemma preserves_status_var_set text : preserves (status_var_set text).
Proof.
  intros st H. rewrite (status_var_set_run _ _ _ (wired_status_var _ H)).
  unfold wired, final. cbn [fst snd]. rewrite wiring_write_status; [exact H |].
  rewrite (wired_string_vars _ H). set_solver.
Qed.

#[local] Hint Resolve preserves_status_var_set : preserves.

Lemma preserves_placeholder_action action_name : preserves (placeholder_action action_name).
Proof. unfold placeholder_action. auto with preserves. Qed.

#[local] Hint Resolve preserves_placeholder_action : preserves.

Lemma preserves_select_tool tool_name : preserves (select_tool tool_name).
Proof.
  unfold select_tool.
  apply preserves_bind; [apply preserves_modify; reflexivity | intros _].
  apply preserves_bind; [| intros _; auto with preserves].
  apply preserves_modify. intros st. unfold wiring. fields. f_equal.
  apply fmap_press_command.
Qed.

#[local] Hint Resolve preserves_select_tool : preserves.

Lemma preserves_call filename f : preserves (call filename f).
Proof.
  destruct f; cbn [call];
    unfold cut_tool, move_tool, add_text_tool, adjust_tool, import_video, export_video;
    try (destruct (String.eqb filename "")); auto with preserves.
Qed.

#[local] Hint Resolve preserves_call : preserves.

Lemma preserves_update_adjustment n : preserves (update_adjustment n).
Proof. unfold update_adjustment. auto 10 with preserves. Qed.

Lemma preserves_update_color n : preserves (update_color n).
Proof. unfold update_color, IntVar_get. auto 10 with preserves. Qed.

Lemma preserves_toggle_btn_configure toggle_btn prefix :
  preserves (toggle_btn_configure toggle_btn prefix).
Proof.
  unfold toggle_btn_configure. apply preserves_get_bind. intros st H.
  munfold. destruct (buttons st !! toggle_btn) as [btn|] eqn:Hb; [| exact H].
  destruct (btn_original_text btn) as [original_text|]; [| exact H].
  cbn [fst snd]. unfold wired. rewrite <- H. unfold wiring. fields. f_equal.
  apply (fmap_insert_same _ _ _ btn); [exact Hb | reflexivity].
Qed.

#[local] Hint Resolve preserves_toggle_btn_configure : preserves.

Lemma preserves_toggle_frame frame_container toggle_btn :
  preserves (toggle_frame frame_container toggle_btn).
Proof.
  unfold toggle_frame. apply preserves_get_bind. intros st H.
  destruct (winfo_viewable frame_container st);
    (apply preserves_bind; [apply preserves_modify; reflexivity | auto with preserves | exact H]).
Qed.

#[local] Hint Resolve preserves_toggle_frame : preserves.

Lemma preserves_Label_configure_text ref text : preserves (Label_configure_text ref text).
Proof.
  apply preserves_modify. intros st. unfold wiring. fields. f_equal.
  apply fmap_alter_same. reflexivity.
Qed.

#[local] Hint Resolve preserves_Label_configure_text : preserves.

Lemma preserves_run_callback cb : preserves (run_callback cb).
Proof. destruct cb; cbn [run_callback]; unfold IntVar_get; auto 10 with preserves. Qed.

#[local] Hint Resolve preserves_run_callback : preserves.

Lemma bind_ret {A B} (x : A) (k : A → M B) st : (mret x ≫= k) st = k x st.
Proof.
  unfold mbind, M_bind, mret, M_ret. destruct (k x st) as [[r st'] out]. reflexivity.
Qed.

Lemma wired_bind {A B} (m : M A) (k : A → M B) st :
  wired (final (m st)) → (∀ x, preserves (k x)) → wired (final ((m ≫= k) st)).
Proof.
  intros Hm Hk. unfold mbind, M_bind.
  destruct (m st) as [[[e|x] st'] out]; [exact Hm |].
  specialize (Hk x st' Hm). destruct (k x st') as [[r st''] out']. exact Hk.
Qed.

Lemma preserves_DoubleVar_set key value : preserves (DoubleVar_set key value).
Proof.
  unfold DoubleVar_set. apply preserves_get_bind. intros st H.
  destruct (adjustments_vars st !! key) as [var|] eqn:Hv; [| exact H].
  cbn [from_option]. rewrite bind_ret.
  apply wired_bind; [| intros _; auto with preserves].
  unfold wired, modify, final. cbn [fst snd]. rewrite <- H. unfold wiring. fields.
  f_equal. apply (fmap_insert_same _ _ _ var); [exact Hv | reflexivity].
Qed.

Lemma preserves_IntVar_set key value : preserves (IntVar_set key value).
Proof.
  unfold IntVar_set. apply preserves_get_bind. intros st H.
  destruct (color_vars st !! key) as [var|] eqn:Hv; [| exact H].
  cbn [from_option]. rewrite bind_ret.
  apply wired_bind; [| intros _; auto with preserves].
  unfold wired, modify, final. cbn [fst snd]. rewrite <- H. unfold wiring. fields.
  f_equal. apply (fmap_insert_same _ _ _ var); [exact Hv | reflexivity].
Qed.

Lemma preserves_run_command filename c : preserves (run_command filename c).
Proof.
  destruct c; cbn [run_command]; auto with preserves.
Qed.

Lemma preserves_handle ev : preserves (handle ev).
Proof.
  destruct ev; cbn [handle].
  - apply preserves_get_bind. intros st H.
    destruct (command_of st w); [| exact H].
    apply preserves_CallWrapper; [apply preserves_run_command | exact H].
  - auto using preserves_DoubleVar_set, preserves_update_adjustment with preserves.
  - auto using preserves_IntVar_set, preserves_update_color with preserves.
  - apply preserves_modify. reflexivity.
  - auto with preserves.
  - apply preserves_CallWrapper, preserves_modify. reflexivity.
  - apply preserves_CallWrapper, preserves_modify. reflexivity.
  - auto with preserves.
Qed.

(** The wiring that the construction sets up holds in every state of the main
    loop. *)
Lemma reachable_wired st : reachable st → wired st.
Proof.
  induction 1 as [|st ev _ IH].
  - reflexivity.
  - apply (preserves_handle ev st IH).
Qed.

Lemma reachable_run evs st : reachable st → reachable (run evs st).
Proof.
  revert st. induction evs as [|ev evs IH]; intros st H; cbn; [exact H |].
  apply IH. constructor. exact H.
Qed.

(** ** Tool selection *)

Lemma select_tool_run tool_name st name :
  status_var st = Some name →
  select_tool tool_name st
    = (inr tt, selected name tool_name st, ["Selected tool: " +:+ tool_name]).
Proof.
  intros H. unfold select_tool, selected.
  unfold mbind at 1, M_bind at 1, modify at 1.
  unfold mbind at 1, M_bind at 1, modify at 1.
  unfold mbind at 1, M_bind at 1.
  rewrite (status_var_set_run _ _ name) by (fields; exact H).
  reflexivity.
Qed.

Lemma bind_run {A B} (m : M A) (k : A → M B) st x st' out :
  m st = (inr x, st', out) →
  (m ≫= k) st = (result (k x st'), final (k x st'), (out ++ output (k x st'))%list).
Proof.
  intros H. unfold mbind, M_bind. rewrite H.
  destruct (k x st') as [[r st''] out']. reflexivity.
Qed.

Lemma selected_status_var name t st : status_var (selected name t st) = status_var st.
Proof. reflexivity. Qed.

Lemma selected_status_text name t st :
  status_var st = Some name →
  status_text (selected name t st) = Some ("Selected tool: " +:+ t).
Proof. intros H. unfold selected. apply write_status_text. fields. exact H. Qed.

Lemma exclusive_selected name t st :
  status_var st = Some name → is_Some (toolbar_buttons st !! t) →
  exclusive_selection t (selected name t st).
Proof.
  intros H [b Hb]. unfold exclusive_selection.
  split; [reflexivity |]. split; [apply selected_status_text, H |].
  unfold selected, write_status. fields. split.
  - exists (Button_state_pressed true b). rewrite lookup_press, Hb.
    rewrite bool_decide_eq_true_2 by reflexivity. split; reflexivity.
  - intros n b' Hn Hne. rewrite lookup_press in Hn.
    destruct (toolbar_buttons st !! n) as [b0|]; [| discriminate].
    rewrite bool_decide_eq_false_2 in Hn by exact Hne.
    injection Hn as <-. reflexivity.
Qed.

(** Once the status bar exists no tool handler raises. *)
Lemma call_run filename f st name :
  status_var st = Some name →
  ∃ st' out, call filename f st = (inr tt, st', out) ∧ status_var st' = Some name
             ∧ current_tool st' = (if f is fn_adjust_tool then Some "Adjust" else current_tool st).
Proof.
  intros H. destruct f; cbn [call];
    unfold cut_tool, move_tool, add_text_tool, adjust_tool, import_video, export_video.
  1-3: rewrite (placeholder_action_run _ _ _ H); eauto.
  - erewrite bind_run by (apply placeholder_action_run, H).
    rewrite (select_tool_run _ _ name) by exact H.
    cbv [result final output]. cbn [fst snd]. eauto.
  - destruct (String.eqb filename ""); [cbv [mret M_ret]; eauto |].
    rewrite (placeholder_action_run _ _ _ H); eauto.
  - destruct (String.eqb filename ""); [cbv [mret M_ret]; eauto |].
    rewrite (placeholder_action_run _ _ _ H); eauto.
Qed.

Lemma init_toolbar_commands :
  map_Forall (λ n b, is_toolbar_command n b = true) (toolbar_buttons init).
Proof. apply map_Forall_to_list. vm_compute. repeat constructor. Qed.

Lemma wired_toolbar_lookup st n :
  wired st → btn_command <$> toolbar_buttons st !! n = btn_command <$> toolbar_buttons init !! n.
Proof.
  intros H. apply (f_equal w_toolbar) in H. cbn [wiring w_toolbar] in H.
  rewrite <- !lookup_fmap, H. reflexivity.
Qed.

Lemma wired_toolbar_command st n b :
  wired st → toolbar_buttons st !! n = Some b →
  ∃ f, btn_command b = Some (lambda_toolbar f n).
Proof.
  intros H Hb. pose proof (wired_toolbar_lookup st n H) as Hw. rewrite Hb in Hw.
  destruct (toolbar_buttons init !! n) as [b0|] eqn:Hb0; [| discriminate].
  cbn in Hw. injection Hw as Hc. pose proof (init_toolbar_commands n b0 Hb0) as Hi.
  unfold is_toolbar_command in Hi. rewrite <- Hc in Hi.
  destruct (btn_command b) as [[| f n' | | | |]|]; try discriminate.
  apply String.eqb_eq in Hi. subst n'. eauto.
Qed.

Lemma wired_toolbar_registered st st' n :
  wired st → wired st' →
  is_Some (toolbar_buttons st !! n) → is_Some (toolbar_buttons st' !! n).
Proof.
  intros H H' [b Hb]. pose proof (wired_toolbar_lookup st n H) as Hw.
  rewrite <- (wired_toolbar_lookup st' n H'), Hb in Hw.
  destruct (toolbar_buttons st' !! n); [eauto | discriminate].
Qed.

(** A click on a registered toolbar button ends in [select_tool]. *)
Lemma toolbar_click_run st n filename :
  wired st → is_Some (toolbar_buttons st !! n) →
  ∃ st', wired st' ∧
         step st (invoke (toolbar_button n) filename) = selected "PY_VAR20" n st'.
Proof.
  intros Hw [b Hb]. destruct (wired_toolbar_command st n b Hw Hb) as [f Hf].
  pose proof (wired_status_var st Hw) as Hs.
  unfold step, exec, handle. rewrite bind_run with (x := st) (st' := st) (out := [])
    by reflexivity.
  cbv [final]. cbn [fst snd command_of]. rewrite Hb. cbn [mbind option_bind]. rewrite Hf.
  change (CallWrapper ?m st).1.2 with (final (CallWrapper m st)).
  rewrite final_CallWrapper. cbn [run_command].
  pose proof (preserves_call filename f st Hw) as Hw'.
  destruct (call_run filename f st _ Hs) as (st' & out & Hc & Hs' & _).
  rewrite Hc in Hw'. cbv [final] in Hw'. cbn [fst snd] in Hw'.
  rewrite (bind_run _ _ _ _ _ _ Hc).
  rewrite (select_tool_run _ _ _ Hs').
  cbv [final]. cbn [fst snd]. exists st'. split; [exact Hw' | reflexivity].
Qed.

Lemma bind_get {B} (k : App → M B) st : (get ≫= k) st = k st st.
Proof. unfold mbind, M_bind, get. destruct (k st st) as [[r st'] out]. reflexivity. Qed.

Lemma CallWrapper_ok (m : M unit) st : result (m st) = inr tt → CallWrapper m st = m st.
Proof.
  unfold CallWrapper, result. destruct (m st) as [[[e|[]] st'] out]; cbn; congruence.
Qed.

Lemma wired_buttons_lookup st ref :
  wired st →
  (λ b, (btn_command b, btn_original_text b)) <$> buttons st !! ref
    = (λ b, (btn_command b, btn_original_text b)) <$> buttons init !! ref.
Proof.
  intros H. apply (f_equal w_buttons) in H. cbn [wiring w_buttons] in H.
  rewrite <- !lookup_fmap, H. reflexivity.
Qed.

(** The command behind every widget is the one the construction gave it. *)
Lemma wired_command_of st w : wired st → command_of st w = command_of init w.
Proof.
  intros H. destruct w as [label|text|name|ref]; cbn [command_of]; try reflexivity.
  - pose proof (wired_toolbar_lookup st name H) as Hw.
    destruct (toolbar_buttons st !! name), (toolbar_buttons init !! name);
      cbn in *; congruence.
  - pose proof (wired_buttons_lookup st ref H) as Hw.
    destruct (buttons st !! ref), (buttons init !! ref); cbn in *; congruence.
Qed.

Lemma handle_invoke st w filename c :
  wired st → command_of init w = Some c →
  handle (invoke w filename) st = CallWrapper (run_command filename c) st.
Proof.
  intros H Hc. cbn [handle]. rewrite bind_get, (wired_command_of _ _ H), Hc. reflexivity.
Qed.

Lemma tool_click_run st name f filename out st' :
  wired st → command_of init (toolbar_button name) = Some (lambda_toolbar f name) →
  call filename f st = (inr tt, st', out) → status_var st' = Some "PY_VAR20" →
  let r := handle (invoke (toolbar_button name) filename) st in
  r = (call filename f;; select_tool name) st ∧
  result r = inr tt ∧
  output r = (out ++ ["Selected tool: " +:+ name])%list ∧
  current_tool (final r) = Some name ∧
  status_text (final r) = Some ("Selected tool: " +:+ name).
Proof.
  intros H Hc Hf Hs r. subst r. rewrite (handle_invoke _ _ _ _ H Hc). cbn [run_command].
  assert (Hr : (call filename f;; select_tool name) st
               = (inr tt, selected "PY_VAR20" name st',
                  (out ++ ["Selected tool: " +:+ name])%list)).
  { rewrite (bind_run _ _ _ _ _ _ Hf), (select_tool_run _ _ _ Hs). reflexivity. }
  rewrite CallWrapper_ok by (rewrite Hr; reflexivity).
  rewrite Hr. cbv [result final output]. cbn [fst snd].
  repeat split. apply selected_status_text, Hs.
Qed.

(** ** Toolbar clicks *)

(** C3. In every state of the main loop, a click on Cut, Move, Add Text or
    Adjust runs the button's placeholder handler and then [select_tool] with
    the button's name: the handler's action is the first line on the console,
    and the click ends with the current tool equal to the name and the status
    text ["Selected tool: <name>"].  A click on Import or Export leaves the
    current tool as it was, whatever the file dialog answers. *)
Theorem toolbar_click_spec (st : App) :
  reachable st →
  (∀ name handler action filename,
     (name, (handler, action)) ∈ tool_buttons →
     let r := handle (invoke (toolbar_button name) filename) st in
     r = (handler;; select_tool name) st ∧
     result r = inr tt ∧
     head (output r) = Some ("[PLACEHOLDER] " +:+ action) ∧
     current_tool (final r) = Some name ∧
     status_text (final r) = Some ("Selected tool: " +:+ name)) ∧
  (∀ ref filename,
     ref = "imp_btn" ∨ ref = "exp_btn" →
     current_tool (step st (invoke (named_button ref) filename)) = current_tool st).
Proof.
  intros Hr. pose proof (reachable_wired st Hr) as H.
  pose proof (wired_status_var st H) as Hs. split.
  - intros name handler action filename Hin r. subst r. unfold tool_buttons in Hin.
    repeat (apply elem_of_cons in Hin as [Hin|Hin]; [injection Hin as -> -> -> |]);
      [ | | | | apply elem_of_nil in Hin; destruct Hin ].
    + destruct (tool_click_run st "Cut" fn_cut_tool filename _ _ H eq_refl
                  (placeholder_action_run _ _ _ Hs) Hs) as (E & R & O & C & T).
      rewrite O. repeat split; assumption.
    + destruct (tool_click_run st "Move" fn_move_tool filename _ _ H eq_refl
                  (placeholder_action_run _ _ _ Hs) Hs) as (E & R & O & C & T).
      rewrite O. repeat split; assumption.
    + destruct (tool_click_run st "Add Text" fn_add_text_tool filename _ _ H eq_refl
                  (placeholder_action_run _ _ _ Hs) Hs) as (E & R & O & C & T).
      rewrite O. repeat split; assumption.
    + assert (Ha : call filename fn_adjust_tool st
                   = (inr tt,
                      selected "PY_VAR20" "Adjust"
                        (write_status "PY_VAR20" "Action: Adjust Tool selected" st),
                      ["[PLACEHOLDER] Adjust Tool selected"; "Selected tool: Adjust"])).
      { cbn [call]. unfold adjust_tool.
        rewrite (bind_run _ _ _ _ _ _ (placeholder_action_run _ _ _ Hs)).
        rewrite (select_tool_run _ _ "PY_VAR20") by exact Hs. reflexivity. }
      destruct (tool_click_run st "Adjust" fn_adjust_tool filename _ _ H eq_refl Ha Hs)
        as (E & R & O & C & T).
      rewrite O. repeat split; assumption.
  - intros ref filename Href. unfold step, exec.
    assert (Hc : ∃ f, command_of init (named_button ref) = Some (call_fun f)
                      ∧ f ≠ fn_adjust_tool).
    { destruct Href as [-> | ->]; eexists; (split; [reflexivity | discriminate]). }
    destruct Hc as (f & Hc & Hf).
    rewrite (handle_invoke _ _ _ _ H Hc), final_CallWrapper. cbn [run_command].
    destruct (call_run filename f st _ Hs) as (st' & out & E & _ & C).
    rewrite E. cbv [final]. cbn [fst snd]. rewrite C. destruct f; congruence.
Qed.

Lemma toolbar_click_spec_witness :
  current_tool (step init (invoke (toolbar_button "Cut") "")) = Some "Cut" ∧
  status_text (step init (invoke (toolbar_button "Cut") "")) = Some "Selected tool: Cut" ∧
  current_tool (step init (invoke (named_button "imp_btn") "/tmp/clip.mp4")) = Some "Move".
Proof.
  destruct (toolbar_click_spec init reachable_init) as [Ht Hi].
  destruct (Ht "Cut" cut_tool "Cut Tool used" "" ltac:(unfold tool_buttons; left))
    as (_ & _ & _ & C & T).
  split; [exact C |]. split; [exact T |].
  exact (Hi "imp_btn" "/tmp/clip.mp4" (or_introl eq_refl)).
Defined.

(** C9. In every state of the main loop: [select_tool t] for a registered
    name [t] returns normally and leaves exactly the button named [t] pressed,
    every other toolbar button not pressed, [current_tool] equal to [t] and
    the status text ["Selected tool: t"]; and the same holds, for the button
    clicked last, after every non-empty sequence of clicks on registered
    toolbar buttons. *)
Theorem exclusive_selection_spec (st : App) :
  reachable st →
  (∀ t, is_Some (toolbar_buttons st !! t) →
     result (select_tool t st) = inr tt ∧
     exclusive_selection t (exec (select_tool t) st)) ∧
  (∀ (clicks : list (string * string)) (last_click : string * string),
     Forall (λ c, is_Some (toolbar_buttons st !! c.1)) (clicks ++ [last_click])%list →
     exclusive_selection last_click.1
       (run (tool_click <$> (clicks ++ [last_click])%list) st)).
Proof.
  intros Hr. pose proof (reachable_wired st Hr) as H.
  pose proof (wired_status_var st H) as Hs. split.
  - intros t Ht. unfold exec. rewrite (select_tool_run _ _ _ Hs).
    split; [reflexivity |]. apply exclusive_selected; assumption.
  - intros clicks last_click Hall. apply Forall_app in Hall as [_ Hlast].
    apply Forall_inv in Hlast.
    rewrite fmap_app. unfold run. rewrite foldl_app. cbn [fmap list_fmap foldl].
    pose proof (reachable_wired _ (reachable_run (tool_click <$> clicks) st Hr)) as H'.
    destruct (toolbar_click_run _ last_click.1 last_click.2 H'
                (wired_toolbar_registered _ _ _ H H' Hlast)) as (st' & Hw' & E).
    change (foldl step st (tool_click <$> clicks)) with (run (tool_click <$> clicks) st).
    change (tool_click last_click)
      with (invoke (toolbar_button last_click.1) last_click.2).
    rewrite E.
    apply exclusive_selected; [apply wired_status_var, Hw' |].
    apply (wired_toolbar_registered st); assumption.
Qed.

Lemma exclusive_selection_spec_witness :
  exclusive_selection "Adjust" (exec (select_tool "Adjust") init) ∧
  exclusive_selection "Cut"
    (run [invoke (toolbar_button "Adjust") ""; invoke (toolbar_button "Cut") ""] init).
Proof.
  destruct (exclusive_selection_spec init reachable_init) as [Hs Hc]. split.
  - apply Hs. vm_compute. eauto.
  - apply (Hc [("Adjust", "")] ("Cut", "")).
    repeat constructor; vm_compute; eauto.
Defined.

(** ** Startup *)

(** C10. The construction ends normally; the status variable is created with
    the text ["Ready"], and [select_tool("Move")], the last step of the
    construction, overwrites it: when the main loop starts the current tool is
    ["Move"] and the status bar shows ["Selected tool: Move"], not ["Ready"]. *)
Theorem startup_status :
  startup empty_app = (inr tt, init, ["Selected tool: Move"]) ∧
  status_text (exec build_ui empty_app) = Some "Ready" ∧
  exec startup empty_app = exec (select_tool "Move") (exec build_ui empty_app) ∧
  current_tool init = Some "Move" ∧
  status_text init = Some "Selected tool: Move" ∧
  displayed init "status_bar" = Some "Selected tool: Move" ∧
  status_text init ≠ Some "Ready".
Proof.
  split; [vm_compute; reflexivity |].
  split; [vm_compute; reflexivity |].
  split; [vm_compute; reflexivity |].
  split; [vm_compute; reflexivity |].
  split; [vm_compute; reflexivity |].
  split; [vm_compute; reflexivity |].
  vm_compute. discriminate.
Qed.

(** ** Timeline *)

Lemma wired_timeline st : wired st → timeline_inner st = timeline_inner init.
Proof. intros H. apply (f_equal w_timeline) in H. exact H. Qed.

(** C7. [populate_timeline] fills an empty timeline with 12 blocks, block [i]
    in column [i] of row 0 with the text ["Clip <i+1>"], a line break and
    ["00:0<i>:00"]; that is the timeline the main loop starts with, and no
    sequence of events changes it. *)
Theorem timeline_static :
  timeline_inner (exec populate_timeline empty_app) = clip_block <$> range 12 ∧
  timeline_inner init = clip_block <$> range 12 ∧
  length (timeline_inner init) = 12%nat ∧
  (∀ i, (i < 12)%nat →
        timeline_inner init !! i = Some (clip_block (Z.of_nat i))) ∧
  (∀ evs, timeline_inner (run evs init) = timeline_inner init) ∧
  (∀ st ev, reachable st → timeline_inner (step st ev) = timeline_inner st).
Proof.
  split; [vm_compute; reflexivity |].
  split; [vm_compute; reflexivity |].
  split; [reflexivity |].
  split.
  - intros i Hi.
    do 12 (destruct i as [|i]; [vm_compute; reflexivity |]). lia.
  - split.
    + intros evs. apply wired_timeline, reachable_wired, reachable_run, reachable_init.
    + intros st ev H.
      rewrite (wired_timeline st) by apply reachable_wired, H.
      apply wired_timeline, reachable_wired. constructor. exact H.
Qed.

Lemma timeline_static_witness :
  timeline_inner (step init (invoke (menu_entry "Undo") "")) = timeline_inner init.
Proof.
  apply (proj2 (proj2 (proj2 (proj2 (proj2 timeline_static))))). apply reachable_init.
Defined.

(** ** Value labels of the sliders *)

Lemma wired_labels_lookup st ref :
  wired st → lbl_textvariable <$> labels st !! ref = lbl_textvariable <$> labels init !! ref.
Proof.
  intros H. apply (f_equal w_labels) in H. cbn [wiring w_labels] in H.
  rewrite <- !lookup_fmap, H. reflexivity.
Qed.

(** A label bound to a variable other than the status variable shows the
    empty string in every state of the main loop. *)
Lemma wired_label_blank st ref x :
  wired st → lbl_textvariable <$> labels init !! ref = Some (Some x) → x ≠ "PY_VAR20" →
  displayed st ref = Some "".
Proof.
  intros H Hl Hx. rewrite <- (wired_labels_lookup st ref H) in Hl. unfold displayed.
  destruct (labels st !! ref) as [l|]; [| discriminate]. cbn in Hl. injection Hl as Hl.
  cbn. unfold Label_displayed. rewrite Hl.
  assert (Hn : string_vars st !! x = None).
  { apply not_elem_of_dom. rewrite (wired_string_vars st H). set_solver. }
  rewrite Hn. reflexivity.
Qed.

Lemma value_labels_blank st :
  reachable st →
  (∀ n, n ∈ adjustment_names → displayed st (adjust_val_lbl n) = Some "") ∧
  (∀ n, n ∈ ["r"; "g"; "b"] → displayed st (color_val_lbl n) = Some "").
Proof.
  intros Hr. pose proof (reachable_wired st Hr) as H. split; intros n Hn.
  - unfold adjustment_names in Hn.
    repeat (apply elem_of_cons in Hn as [->|Hn];
            [eapply wired_label_blank; [exact H | vm_compute; reflexivity | discriminate] |]).
    apply elem_of_nil in Hn. destruct Hn.
  - repeat (apply elem_of_cons in Hn as [->|Hn];
            [eapply wired_label_blank; [exact H | vm_compute; reflexivity | discriminate] |]).
    apply elem_of_nil in Hn. destruct Hn.
Qed.

(** C1. Moving the brightness slider to 5.0 and the red slider to 200: each
    variable holds the new value and its updater has configured the [-text]
    option of the value label with the formatted value, yet the label, which
    was created with a [textvariable], shows the empty string. *)
Theorem value_label_not_updated :
  let st := exec (DoubleVar_set "brightness" 5%float) init in
  let st' := exec (IntVar_set "r" (PyInt 200)) init in
  dv_value <$> adjustments_vars st !! "brightness" = Some 5%float ∧
  lbl_text <$> labels st !! adjust_val_lbl "brightness" = Some (Py.format_2f 5%float) ∧
  displayed st (adjust_val_lbl "brightness") = Some "" ∧
  Py.format_2f 5%float = "5.00" ∧
  iv_value <$> color_vars st' !! "r" = Some (PyInt 200) ∧
  lbl_text <$> labels st' !! color_val_lbl "r" = Some (Py.str_int 200) ∧
  displayed st' (color_val_lbl "r") = Some "" ∧
  Py.str_int 200 = "200".
Proof. repeat split; vm_compute; reflexivity. Qed.

(** ** Collapsible sections *)

Lemma elem_of_forget (w w' : Frame) l : w' ∈ forget w l ↔ w' ≠ w ∧ w' ∈ l.
Proof. unfold forget. rewrite list_elem_of_filter. reflexivity. Qed.

Lemma elem_of_pack (w w' : Frame) l : w' ∈ pack w l ↔ w' = w ∨ w' ∈ l.
Proof.
  unfold pack. case_bool_decide as Hw.
  - split; [auto | intros [->|H]; assumption].
  - rewrite elem_of_app, list_elem_of_singleton. tauto.
Qed.

Lemma toggle_frame_run frame_container toggle_btn title b st :
  buttons st !! toggle_btn = Some b → btn_original_text b = Some title →
  toggle_frame frame_container toggle_btn st
    = (inr tt, toggled frame_container toggle_btn title b st, []).
Proof.
  intros Hb Ht. unfold toggle_frame, toggled. rewrite bind_get.
  destruct (winfo_viewable frame_container st);
    unfold toggle_btn_configure; munfold; fields; rewrite Hb, Ht; reflexivity.
Qed.

Lemma toggled_viewable frame_container toggle_btn title b st :
  winfo_viewable frame_container (toggled frame_container toggle_btn title b st)
    = negb (winfo_viewable frame_container st).
Proof.
  unfold toggled, winfo_viewable.
  destruct (bool_decide (frame_container ∈ prop_inner_slaves st)) eqn:E; fields; cbn [negb].
  - apply bool_decide_eq_false. rewrite elem_of_forget. tauto.
  - apply bool_decide_eq_true. rewrite elem_of_pack. auto.
Qed.

Lemma toggled_viewable_other frame_container toggle_btn title b st other :
  other ≠ frame_container →
  winfo_viewable other (toggled frame_container toggle_btn title b st)
    = winfo_viewable other st.
Proof.
  intros Hne. unfold toggled, winfo_viewable.
  destruct (bool_decide (frame_container ∈ prop_inner_slaves st)); fields;
    apply bool_decide_ext.
  - rewrite elem_of_forget. tauto.
  - rewrite elem_of_pack. tauto.
Qed.

Lemma toggled_unchanged frame_container toggle_btn title b st :
  unchanged_except_sections st (toggled frame_container toggle_btn title b st).
Proof.
  unfold toggled, unchanged_except_sections.
  destruct (winfo_viewable frame_container st); fields; repeat split.
Qed.

Lemma toggled_buttons frame_container toggle_btn title b st :
  (btn_text <$> buttons (toggled frame_container toggle_btn title b st) !! toggle_btn
     = Some ((if winfo_viewable frame_container st then "‚ñ∫ " else "‚ñº ") +:+ title)) ∧
  (∀ ref, ref ≠ toggle_btn →
     buttons (toggled frame_container toggle_btn title b st) !! ref = buttons st !! ref).
Proof.
  unfold toggled.
  destruct (winfo_viewable frame_container st); fields;
    (split; [rewrite lookup_insert_eq; reflexivity
            | intros ref Hne; apply lookup_insert_ne; congruence]).
Qed.

Lemma toggled_slaves frame_container toggle_btn title b st :
  prop_inner_slaves (toggled frame_container toggle_btn title b st)
  = (if winfo_viewable frame_container st
     then forget frame_container (prop_inner_slaves st)
     else prop_inner_slaves st ++ [frame_container])%list.
Proof.
  unfold toggled, winfo_viewable.
  destruct (bool_decide (frame_container ∈ prop_inner_slaves st)) eqn:E; fields;
    [reflexivity |].
  unfold pack. rewrite E. reflexivity.
Qed.

(** One click on the header of a section, in a state of the main loop. *)
Lemma toggle_click st toggle frame title filename :
  wired st → (toggle, frame, title) ∈ sections →
  ∃ b, buttons st !! toggle = Some b ∧
       handle (invoke (named_button toggle) filename) st
         = (inr tt, toggled frame toggle title b st, []) ∧
       toggle_frame frame toggle st = (inr tt, toggled frame toggle title b st, []).
Proof.
  intros H Hin. unfold sections in Hin.
  assert (Hi : (λ b, (btn_command b, btn_original_text b)) <$> buttons init !! toggle
               = Some (Some (lambda_toggle frame toggle), Some title)).
  { repeat (apply elem_of_cons in Hin as [Hin|Hin];
            [injection Hin as -> -> ->; reflexivity |]).
    apply elem_of_nil in Hin. destruct Hin. }
  assert (Hc : command_of init (named_button toggle) = Some (lambda_toggle frame toggle)).
  { cbn [command_of]. destruct (buttons init !! toggle) as [b0|]; [| discriminate].
    cbn in Hi. injection Hi as Hc _. exact Hc. }
  rewrite <- (wired_buttons_lookup st toggle H) in Hi.
  destruct (buttons st !! toggle) as [b|] eqn:Hb; [| discriminate].
  cbn in Hi. injection Hi as _ Ht. exists b. split; [reflexivity |].
  pose proof (toggle_frame_run frame toggle title b st Hb Ht) as Hrun.
  split; [| exact Hrun].
  rewrite (handle_invoke _ _ _ _ H Hc). cbn [run_command].
  rewrite CallWrapper_ok by (rewrite Hrun; reflexivity). exact Hrun.
Qed.

(** What a click on the header button of a section does, in every state of
    the main loop: it runs [toggle_frame] on that section, returns normally,
    flips whether the section's frame is viewable, sets the header text to
    the matching prefix followed by the section title, and leaves the other
    frames as viewable as they were, the other buttons, the slider variables,
    the current tool, the status text and all remaining state untouched.  A
    second click restores the viewability the frame had before the first.
    The packing list loses the frame when it is hidden and gets it back at
    its end when it is shown. *)
Theorem toggle_spec (st : App) :
  reachable st →
  ∀ toggle frame title filename,
    (toggle, frame, title) ∈ sections →
    let ev := invoke (named_button toggle) filename in
    let r := handle ev st in
    r = toggle_frame frame toggle st ∧
    result r = inr tt ∧
    winfo_viewable frame (final r) = negb (winfo_viewable frame st) ∧
    btn_text <$> buttons (final r) !! toggle
      = Some ((if winfo_viewable frame st then "‚ñ∫ " else "‚ñº ") +:+ title) ∧
    (∀ other, other ≠ frame → winfo_viewable other (final r) = winfo_viewable other st) ∧
    (∀ ref, ref ≠ toggle → buttons (final r) !! ref = buttons st !! ref) ∧
    unchanged_except_sections st (final r) ∧
    status_text (final r) = status_text st ∧
    winfo_viewable frame (step (step st ev) ev) = winfo_viewable frame st ∧
    prop_inner_slaves (final r)
      = (if winfo_viewable frame st then forget frame (prop_inner_slaves st)
         else prop_inner_slaves st ++ [frame])%list.
Proof.
  intros Hr toggle frame title filename Hin ev r. subst r ev.
  pose proof (reachable_wired st Hr) as H.
  destruct (toggle_click st toggle frame title filename H Hin) as (b & Hb & Hh & Ht).
  assert (Hstep : step st (invoke (named_button toggle) filename)
                  = toggled frame toggle title b st).
  { unfold step, exec. rewrite Hh. reflexivity. }
  rewrite Hh, Ht. cbv [result final]. cbn [fst snd].
  split; [reflexivity |]. split; [reflexivity |].
  split; [apply toggled_viewable |].
  split; [apply toggled_buttons |].
  split; [intros other Hne; apply toggled_viewable_other, Hne |].
  split; [apply toggled_buttons |].
  split; [apply toggled_unchanged |].
  split.
  - destruct (toggled_unchanged frame toggle title b st) as (_ & Hsv & Hst & _).
    unfold status_text. rewrite Hsv, Hst. reflexivity.
  - split; [| apply toggled_slaves].
    rewrite Hstep.
    assert (H1 : wired (toggled frame toggle title b st)).
    { rewrite <- Hstep. apply reachable_wired. constructor. exact Hr. }
    destruct (toggle_click _ toggle frame title filename H1 Hin) as (b' & _ & Hh' & _).
    unfold step, exec. rewrite Hh'. cbv [final]. cbn [fst snd].
    rewrite !toggled_viewable. apply negb_involutive.
Qed.

Lemma toggle_spec_witness :
  winfo_viewable adjust_frame (step init (invoke (named_button "adjust_toggle") "")) = false ∧
  btn_text <$> buttons (step init (invoke (named_button "adjust_toggle") "")) !! "adjust_toggle"
    = Some "‚ñ∫ Adjustments" ∧
  winfo_viewable adjust_frame
    (step (step init (invoke (named_button "adjust_toggle") ""))
       (invoke (named_button "adjust_toggle") "")) = true.
Proof.
  destruct (toggle_spec init reachable_init "adjust_toggle" adjust_frame "Adjustments" ""
              ltac:(unfold sections; left)) as (_ & _ & V & T & _ & _ & _ & _ & D & _).
  split; [exact V |]. split; [exact T | exact D].
Defined.

(** Re-packing appends: after collapsing and expanding the Adjustments
    section its frame is viewable again, now last in the packing list. *)
Example toggle_twice_packing_order :
  prop_inner_slaves init = [adjust_header; adjust_frame; color_header; color_frame] ∧
  prop_inner_slaves
    (run [invoke (named_button "adjust_toggle") "";
          invoke (named_button "adjust_toggle") ""] init)
  = [adjust_header; color_header; color_frame; adjust_frame].
Proof. split; vm_compute; reflexivity. Qed.

(** Collapsing and expanding a section, in any state of the main loop where
    its frame is viewable, moves the frame to the end of the packing list. *)
Lemma toggle_twice_moves_frame st toggle frame title filename :
  reachable st → (toggle, frame, title) ∈ sections →
  winfo_viewable frame st = true →
  let ev := invoke (named_button toggle) filename in
  prop_inner_slaves (step (step st ev) ev)
  = (forget frame (prop_inner_slaves st) ++ [frame])%list.
Proof.
  intros Hr Hin Hv ev. subst ev.
  pose proof (reachable_wired st Hr) as H.
  destruct (toggle_click st toggle frame title filename H Hin) as (b & _ & Hh & _).
  assert (Hstep : step st (invoke (named_button toggle) filename)
                  = toggled frame toggle title b st).
  { unfold step, exec. rewrite Hh. reflexivity. }
  rewrite Hstep.
  assert (H1 : wired (toggled frame toggle title b st)).
  { rewrite <- Hstep. apply reachable_wired. constructor. exact Hr. }
  destruct (toggle_click _ toggle frame title filename H1 Hin) as (b' & _ & Hh' & _).
  unfold step, exec. rewrite Hh'. cbv [final]. cbn [fst snd].
  rewrite toggled_slaves, toggled_viewable, Hv. cbn [negb].
  rewrite toggled_slaves, Hv. reflexivity.
Qed.

(** C8. Two clicks on the header of the Adjustments section, from the state
    in which the main loop starts: the frame is viewable again and the header
    text is the one it was, so the visibility state is restored; but
    [toggle_frame] re-packs the frame without a position, so the frame has
    moved from its place under the Adjustments header to the end of the
    packing list, below the Color Mixer section.  A toggle therefore changes
    more than the visibility and the header prefix, and toggling twice does
    not return the section to the state it was in. *)
Theorem toggle_twice_not_identity :
  let ev := invoke (named_button "adjust_toggle") "" in
  prop_inner_slaves init = [adjust_header; adjust_frame; color_header; color_frame] ∧
  prop_inner_slaves (step init ev) = [adjust_header; color_header; color_frame] ∧
  prop_inner_slaves (step (step init ev) ev)
    = [adjust_header; color_header; color_frame; adjust_frame] ∧
  winfo_viewable adjust_frame (step (step init ev) ev) = winfo_viewable adjust_frame init ∧
  buttons (step (step init ev) ev) = buttons init ∧
  prop_inner_slaves (step (step init ev) ev) ≠ prop_inner_slaves init ∧
  step (step init ev) ev ≠ init.
Proof.
  split; [vm_compute; reflexivity |].
  split; [vm_compute; reflexivity |].
  split; [vm_compute; reflexivity |].
  split; [vm_compute; reflexivity |].
  split; [vm_compute; reflexivity |].
  assert (Hne : prop_inner_slaves
                  (step (step init (invoke (named_button "adjust_toggle") ""))
                     (invoke (named_button "adjust_toggle") ""))
                ≠ prop_inner_slaves init).
  { vm_compute. discriminate. }
  split; [exact Hne |].
  intros E. apply Hne. rewrite E. reflexivity.
Qed.

(** ** Buttons and the status text *)

Lemma step_invoke st w filename c :
  wired st → command_of init w = Some c →
  step st (invoke w filename) = exec (run_command filename c) st.
Proof.
  intros H Hc. unfold step, exec. rewrite (handle_invoke _ _ _ _ H Hc).
  apply final_CallWrapper.
Qed.

Lemma placeholder_updates w filename action_name :
  command_of init w = Some (lambda_placeholder action_name) → updates_status w filename.
Proof.
  intros Hc. exists ("Action: " +:+ action_name). intros st Hr.
  pose proof (reachable_wired st Hr) as H. pose proof (wired_status_var st H) as Hs.
  rewrite (step_invoke _ _ _ _ H Hc). unfold exec. cbn [run_command].
  rewrite (placeholder_action_run _ _ _ Hs). apply write_status_text, Hs.
Qed.

Lemma quit_leaves w filename :
  command_of init w = Some root_quit → leaves_status w filename.
Proof.
  intros Hc st Hr. rewrite (step_invoke _ _ _ _ (reachable_wired st Hr) Hc). reflexivity.
Qed.

Lemma showinfo_leaves w filename title message :
  command_of init w = Some (lambda_showinfo title message) → leaves_status w filename.
Proof.
  intros Hc st Hr. rewrite (step_invoke _ _ _ _ (reachable_wired st Hr) Hc). reflexivity.
Qed.

Lemma toolbar_updates name filename :
  is_button (toolbar_button name) → updates_status (toolbar_button name) filename.
Proof.
  intros [c Hc]. exists ("Selected tool: " +:+ name). intros st Hr.
  pose proof (reachable_wired st Hr) as H.
  assert (Hreg : is_Some (toolbar_buttons st !! name)).
  { apply (wired_toolbar_registered init); [reflexivity | exact H |].
    cbn [command_of] in Hc. destruct (toolbar_buttons init !! name); [eauto | discriminate]. }
  destruct (toolbar_click_run st name filename H Hreg) as (st' & H' & E).
  rewrite E. apply selected_status_text, wired_status_var, H'.
Qed.

Lemma init_named_commands :
  (λ p : string * Button, (p.1, btn_command p.2)) <$> map_to_list (buttons init)
  = [("color_toggle", Some (lambda_toggle color_frame "color_toggle"));
     ("exp_btn", Some (call_fun fn_export_video));
     ("imp_btn", Some (call_fun fn_import_video));
     ("adjust_toggle", Some (lambda_toggle adjust_frame "adjust_toggle"))].
Proof. vm_compute. reflexivity. Qed.

Lemma named_button_cases ref :
  is_button (named_button ref) →
  ref = "color_toggle" ∨ ref = "exp_btn" ∨ ref = "imp_btn" ∨ ref = "adjust_toggle".
Proof.
  intros [c Hc]. cbn [command_of] in Hc.
  destruct (buttons init !! ref) as [b|] eqn:Hb; [| discriminate].
  apply elem_of_map_to_list in Hb.
  apply (list_elem_of_fmap_2 (λ p : string * Button, (p.1, btn_command p.2))) in Hb.
  rewrite init_named_commands in Hb. cbn [fst snd] in Hb.
  repeat (apply elem_of_cons in Hb as [Hb|Hb]; [injection Hb as -> _; tauto |]).
  apply elem_of_nil in Hb. destruct Hb.
Qed.

Lemma dialog_button_status ref filename text f :
  command_of init (named_button ref) = Some (call_fun f) →
  (∀ st name, status_var st = Some name →
     call filename f st
     = if String.eqb filename "" then (inr tt, st, [])
       else placeholder_action (text +:+ filename) st) →
  if negb (String.eqb filename "") then updates_status (named_button ref) filename
  else leaves_status (named_button ref) filename.
Proof.
  intros Hc Hcall. destruct (String.eqb filename "") eqn:E; cbn [negb].
  - intros st Hr. pose proof (reachable_wired st Hr) as H.
    rewrite (step_invoke _ _ _ _ H Hc). unfold exec. cbn [run_command].
    rewrite (Hcall st _ (wired_status_var st H)). reflexivity.
  - exists ("Action: " +:+ (text +:+ filename)). intros st Hr.
    pose proof (reachable_wired st Hr) as H. pose proof (wired_status_var st H) as Hs.
    rewrite (step_invoke _ _ _ _ H Hc). unfold exec. cbn [run_command].
    rewrite (Hcall st _ Hs), (placeholder_action_run _ _ _ Hs).
    apply write_status_text, Hs.
Qed.

Lemma toggle_leaves toggle frame title filename :
  (toggle, frame, title) ∈ sections → leaves_status (named_button toggle) filename.
Proof.
  intros Hin st Hr. pose proof (reachable_wired st Hr) as H.
  destruct (toggle_click st toggle frame title filename H Hin) as (b & _ & Hh & _).
  unfold step, exec. rewrite Hh. cbv [final]. cbn [fst snd].
  destruct (toggled_unchanged frame toggle title b st) as (_ & Hsv & Hst & _).
  unfold status_text. rewrite Hsv, Hst. reflexivity.
Qed.

Lemma button_status (w : Widget) (filename : string) :
  is_button w →
  if writes_status w filename then updates_status w filename
  else leaves_status w filename.
Proof.
  intros Hb. destruct w as [label|text|name|ref].
  - destruct Hb as [c Hc]. pose proof Hc as Hin. cbn [command_of] in Hin.
    apply elem_of_list_to_map_2 in Hin. unfold menubar in Hin.
    repeat (apply elem_of_cons in Hin as [Hin|Hin];
            [injection Hin as -> ->; cbn;
             first [ eapply placeholder_updates; exact Hc
                   | apply quit_leaves; exact Hc
                   | eapply showinfo_leaves; exact Hc ] |]).
    apply elem_of_nil in Hin. destruct Hin.
  - destruct Hb as [c Hc]. pose proof Hc as Hin. cbn [command_of] in Hin.
    apply elem_of_list_to_map_2 in Hin. unfold controls_frame in Hin.
    repeat (apply elem_of_cons in Hin as [Hin|Hin];
            [injection Hin as -> ->; cbn; eapply placeholder_updates; exact Hc |]).
    apply elem_of_nil in Hin. destruct Hin.
  - apply toolbar_updates, Hb.
  - destruct (named_button_cases ref Hb) as [-> | [-> | [-> | ->]]].
    + apply (toggle_leaves "color_toggle" color_frame "Color Mixer").
      unfold sections. right. left.
    + apply (dialog_button_status "exp_btn" filename "Exported video to: " fn_export_video);
        [reflexivity |].
      intros st name _. cbn [call]. unfold import_video, export_video.
      destruct (String.eqb filename ""); reflexivity.
    + apply (dialog_button_status "imp_btn" filename "Imported video: " fn_import_video);
        [reflexivity |].
      intros st name _. cbn [call]. unfold import_video, export_video.
      destruct (String.eqb filename ""); reflexivity.
    + apply (toggle_leaves "adjust_toggle" adjust_frame "Adjustments").
      unfold sections. left.
Qed.

(** C2, as stated: every button updates the status text.  It fails for the
    header button of the Adjustments section, after which the status bar
    shows whatever it showed before. *)
Lemma not_every_button_updates_status :
  ¬ (∀ w filename, is_button w → updates_status w filename).
Proof.
  intros Hall.
  destruct (Hall (named_button "adjust_toggle") "" ltac:(vm_compute; eauto)) as [text Ht].
  pose proof (Ht init reachable_init) as H0.
  pose proof (Ht (step init (invoke (menu_entry "Undo") ""))
                (reachable_step _ _ reachable_init)) as H1.
  vm_compute in H0. vm_compute in H1. congruence.
Qed.

(** C2, amended.  The four tool buttons, the playback buttons and the menu
    entries other than Exit and About update the status text; Import and
    Export update it when the file dialog returns a path and leave it as it
    was when the dialog is cancelled; the header buttons of the two
    sections, Exit and About leave it as it was. *)
Theorem button_status_spec (w : Widget) (filename : string) :
  is_button w →
  if writes_status w filename then updates_status w filename
  else leaves_status w filename.
Proof. exact (button_status w filename). Qed.

Lemma button_status_spec_witness :
  updates_status (menu_entry "Undo") "" ∧
  leaves_status (named_button "color_toggle") "" ∧
  leaves_status (menu_entry "Exit") "" ∧
  leaves_status (named_button "imp_btn") "" ∧
  updates_status (named_button "imp_btn") "/tmp/clip.mp4".
Proof.
  split; [| split; [| split; [| split]]].
  - apply (button_status_spec (menu_entry "Undo") ""). vm_compute. eauto.
  - apply (button_status_spec (named_button "color_toggle") ""). vm_compute. eauto.
  - apply (button_status_spec (menu_entry "Exit") ""). vm_compute. eauto.
  - apply (button_status_spec (named_button "imp_btn") ""). vm_compute. eauto.
  - apply (button_status_spec (named_button "imp_btn") "/tmp/clip.mp4"). vm_compute. eauto.
Defined.

(** * Further properties of the callbacks *)

(** ** Parts of the state a computation leaves alone *)

Section Stable.
Context {T : Type} (proj : App → T).

Lemma stable_ret {A} (x : A) : stable proj (mret x).
Proof. intros st. reflexivity. Qed.

Lemma stable_raise {A} e : stable proj (raise e : M A).
Proof. intros st. reflexivity. Qed.

Lemma stable_print line : stable proj (print line).
Proof. intros st. reflexivity. Qed.

Lemma stable_get : stable proj get.
Proof. intros st. reflexivity. Qed.

Lemma stable_from_option {A} e (o : option A) : stable proj (from_option e o).
Proof. destruct o; [apply stable_ret | apply stable_raise]. Qed.

Lemma stable_from_sum {A} (r : Py.exn + A) : stable proj (from_sum r).
Proof. destruct r; [apply stable_raise | apply stable_ret]. Qed.

Lemma stable_modify f : (∀ st, proj (f st) = proj st) → stable proj (modify f).
Proof. intros Hf st. apply Hf. Qed.

Lemma stable_bind {A B} (m : M A) (k : A → M B) :
  stable proj m → (∀ x, stable proj (k x)) → stable proj (m ≫= k).
Proof.
  intros Hm Hk st. specialize (Hm st). unfold mbind, M_bind.
  destruct (m st) as [[[e|x] st'] out]; [exact Hm |].
  specialize (Hk x st'). destruct (k x st') as [[r st''] out'].
  unfold final in *. cbn [fst snd] in *. congruence.
Qed.

Lemma stable_CallWrapper m : stable proj m → stable proj (CallWrapper m).
Proof. intros Hm st. rewrite final_CallWrapper. apply Hm. Qed.

Lemma stable_for_each {A} (l : list A) body :
  (∀ x, stable proj (body x)) → stable proj (for_each l body).
Proof.
  intros Hb. induction l as [|x l IH]; cbn [for_each].
  - apply stable_ret.
  - apply stable_bind; auto.
Qed.
End Stable.

Ltac stable_step :=
  first
    [ apply stable_ret | apply stable_raise | apply stable_print | apply stable_get
    | apply stable_from_option | apply stable_from_sum
    | apply stable_CallWrapper
    | apply stable_for_each; intros ?
    | apply stable_bind; [| intros ?]
    | apply stable_modify; intros ?; reflexivity
    | match goal with
      | |- stable _ (if ?b then _ else _) => destruct b
      | |- stable _ (match ?x with _ => _ end) => destruct x
      end ].

Ltac unfold_callbacks :=
  unfold placeholder_action, select_tool, cut_tool, move_tool, add_text_tool,
    adjust_tool, import_video, export_video, update_adjustment, update_color,
    toggle_frame, toggle_btn_configure, draw_preview_placeholder,
    resize_timeline_canvas, status_var_set, StringVar_set, IntVar_get,
    Label_configure_text, DoubleVar_set, IntVar_set.

Ltac stable_auto := unfold_callbacks; repeat stable_step.

Lemma stable_call {T} (proj : App → T) filename f :
  (∀ x st, proj (set_string_vars x st) = proj st) →
  (f = fn_adjust_tool →
   (∀ x st, proj (set_current_tool x st) = proj st) ∧
   (∀ x st, proj (set_toolbar_buttons x st) = proj st)) →
  stable proj (call filename f).
Proof.
  intros Hs Ha. destruct f; cbn [call]; unfold_callbacks;
    repeat first [ apply stable_modify; intros ?; first [apply Hs | apply Ha; reflexivity]
                 | stable_step ].
Qed.

Lemma step_invoke_at st w filename :
  step st (invoke w filename)
  = match command_of st w with
    | Some c => exec (run_command filename c) st
    | None => st
    end.
Proof.
  unfold step, exec. cbn [handle]. rewrite bind_get.
  destruct (command_of st w); [apply final_CallWrapper | reflexivity].
Qed.

Ltac stable_command c :=
  destruct c as [[]| [] ? | | | |]; cbn [run_command call]; try discriminate;
  stable_auto.

Lemma stable_sliders_run_command filename c : stable sliders (run_command filename c).
Proof. stable_command c. Qed.

Lemma stable_canvases_run_command filename c : stable canvases (run_command filename c).
Proof. stable_command c. Qed.

Lemma stable_selection_run_command filename c :
  selects c = false → stable selection (run_command filename c).
Proof. intros H. stable_command c. Qed.

Lemma stable_panel_run_command filename c :
  toggles c = false → stable panel (run_command filename c).
Proof. intros H. stable_command c. Qed.

Lemma stable_quit_run_command filename c :
  quits c = false → stable quit_requested (run_command filename c).
Proof. intros H. stable_command c. Qed.

Lemma stable_run_callback {T} (proj : App → T) cb :
  (∀ x st, proj (set_labels x st) = proj st) → stable proj (run_callback cb).
Proof.
  intros Hl. destruct cb; cbn [run_callback]; unfold_callbacks;
    repeat first [ apply stable_modify; intros ?; apply Hl | stable_step ].
Qed.

Lemma stable_scale {T} (proj : App → T) ev :
  is_scale ev = true →
  (∀ x st, proj (set_labels x st) = proj st) →
  (∀ x st, proj (set_adjustments_vars x st) = proj st) →
  (∀ x st, proj (set_color_vars x st) = proj st) →
  (∀ x st, proj (set_string_vars x st) = proj st) →
  stable proj (handle ev).
Proof.
  intros Hev Hl Ha Hc Hs. destruct ev; try discriminate; cbn [handle]; unfold_callbacks;
    repeat first [ apply stable_modify; intros ?; first [apply Ha | apply Hc | apply Hs]
                 | apply stable_run_callback, Hl
                 | stable_step ].
Qed.

(** ** Which event changes what *)

Lemma event_footprint_parts (st : App) (ev : Event) :
  (is_scale ev = false → sliders (step st ev) = sliders st) ∧
  ((∀ c, command_at st ev = Some c → selects c = false) →
     selection (step st ev) = selection st) ∧
  ((∀ c, command_at st ev = Some c → toggles c = false) →
     panel (step st ev) = panel st) ∧
  ((∀ w h, ev ≠ configure_preview_canvas w h) →
     preview_canvas (step st ev) = preview_canvas st) ∧
  ((∀ h, ev ≠ configure_timeline_canvas h) →
     timeline_window_height (step st ev) = timeline_window_height st) ∧
  timeline_inner (step st ev) = timeline_inner st.
Proof.
  assert (Hinv : ∀ {T} (proj : App → T) w filename,
            (∀ c, command_of st w = Some c → stable proj (run_command filename c)) →
            proj (step st (invoke w filename)) = proj st).
  { intros T proj w filename H. rewrite step_invoke_at.
    destruct (command_of st w) as [c|]; [apply (H c eq_refl) | reflexivity]. }
  repeat split.
  - intros Hs. destruct ev; try discriminate;
      try (unfold step, exec; cbn [handle]; stable_auto; fail).
    apply Hinv. intros c _. apply stable_sliders_run_command.
  - intros Hc. destruct ev;
      try (unfold step, exec; cbn [handle]; stable_auto;
           try (apply stable_run_callback; reflexivity); fail).
    apply Hinv. intros c Hw. apply stable_selection_run_command, Hc, Hw.
  - intros Hc. destruct ev;
      try (unfold step, exec; cbn [handle]; stable_auto;
           try (apply stable_run_callback; reflexivity); fail).
    apply Hinv. intros c Hw. apply stable_panel_run_command, Hc, Hw.
  - intros Hn. destruct ev;
      try (unfold step, exec; cbn [handle]; stable_auto;
           try (apply stable_run_callback; reflexivity); fail).
    + apply (Hinv _ (λ s, (canvases s).1.1)). intros c _ s.
      apply (f_equal (λ x, x.1.1) (stable_canvases_run_command filename c s)).
    + destruct (Hn w h eq_refl).
  - intros Hn. destruct ev;
      try (unfold step, exec; cbn [handle]; stable_auto;
           try (apply stable_run_callback; reflexivity); fail).
    + apply (Hinv _ (λ s, (canvases s).1.2)). intros c _ s.
      apply (f_equal (λ x, x.1.2) (stable_canvases_run_command filename c s)).
    + destruct (Hn height eq_refl).
  - destruct ev;
      try (unfold step, exec; cbn [handle]; stable_auto;
           try (apply stable_run_callback; reflexivity); fail).
    apply (Hinv _ (λ s, (canvases s).2)). intros c _ s.
    apply (f_equal (λ x, x.2) (stable_canvases_run_command filename c s)).
Qed.

(** The panels do not interfere.  Whatever the state: only a slider event
    changes the value of a slider variable; only a command that selects a
    tool changes the current tool; only a section toggle changes the packing
    list of the properties panel or the text of a header button; only a
    resize of the preview redraws the preview canvas, only a resize of the
    timeline canvas changes the height of its window, and no event changes
    the blocks of the timeline. *)
Theorem event_footprint (st : App) (ev : Event) :
  (is_scale ev = false →
     adjustments_vars (step st ev) = adjustments_vars st ∧
     color_vars (step st ev) = color_vars st) ∧
  ((∀ c, command_at st ev = Some c → selects c = false) →
     current_tool (step st ev) = current_tool st) ∧
  ((∀ c, command_at st ev = Some c → toggles c = false) →
     prop_inner_slaves (step st ev) = prop_inner_slaves st ∧
     btn_text <$> buttons (step st ev) = btn_text <$> buttons st) ∧
  ((∀ w h, ev ≠ configure_preview_canvas w h) →
     preview_canvas (step st ev) = preview_canvas st) ∧
  ((∀ h, ev ≠ configure_timeline_canvas h) →
     timeline_window_height (step st ev) = timeline_window_height st) ∧
  timeline_inner (step st ev) = timeline_inner st.
Proof.
  destruct (event_footprint_parts st ev) as (Hs & Hc & Hp & Hv & Hh & Ht).
  split; [| split; [| split; [| split; [| split]]]]; try assumption.
  - intros H. specialize (Hs H). unfold sliders in Hs. injection Hs as -> -> _. auto.
  - intros H. specialize (Hc H). unfold selection in Hc. injection Hc as -> _. reflexivity.
  - intros H. specialize (Hp H). unfold panel in Hp. injection Hp as -> ->. auto.
Qed.

Lemma event_footprint_witness :
  current_tool (step init (scale_adjustment "brightness" 5%float)) = current_tool init ∧
  adjustments_vars (step init (invoke (toolbar_button "Cut") ""))
    = adjustments_vars init ∧
  prop_inner_slaves (step init key_control_s) = prop_inner_slaves init ∧
  preview_canvas (step init (configure_timeline_canvas 140)) = preview_canvas init.
Proof.
  split; [| split; [| split]].
  - apply (event_footprint init (scale_adjustment "brightness" 5%float)).
    intros c Hc. discriminate Hc.
  - apply (event_footprint init (invoke (toolbar_button "Cut") "")). reflexivity.
  - apply (event_footprint init key_control_s). intros c Hc. discriminate Hc.
  - apply (event_footprint init (configure_timeline_canvas 140)). intros w h. discriminate.
Defined.

(** The request to stop the main loop is raised by Control-q and by a widget
    whose command is [root.quit], by nothing else, and no event takes it
    back. *)
Theorem quit_requested_step (st : App) (ev : Event) :
  quit_requested (step st ev) = quit_event st ev || quit_requested st.
Proof.
  assert (Hst : ∀ ev', stable quit_requested (handle ev') →
                       quit_requested (step st ev') = false || quit_requested st).
  { intros ev' H. apply H. }
  destruct ev; unfold quit_event; cbn [command_at].
  - rewrite step_invoke_at. destruct (command_of st w) as [c|]; [| reflexivity].
    destruct (quits c) eqn:Hq.
    + destruct c; try discriminate. reflexivity.
    + apply (stable_quit_run_command filename c Hq).
  - apply Hst. cbn [handle]. stable_auto. apply stable_run_callback. reflexivity.
  - apply Hst. cbn [handle]. stable_auto. apply stable_run_callback. reflexivity.
  - reflexivity.
  - apply Hst. cbn [handle]. stable_auto.
  - apply Hst. cbn [handle]. stable_auto.
  - apply Hst. cbn [handle]. stable_auto.
  - reflexivity.
Qed.

(** ** Errors and edge cases of the callbacks *)

(** Before the status bar exists, [placeholder_action] raises [NameError]
    without any effect, and [select_tool] raises it only after it has set the
    current tool and the [pressed] flags; neither prints its line.  This is
    why the script calls [select_tool("Move")] after creating [status_var]. *)
Theorem callbacks_before_status_bar (st : App) :
  status_var st = None →
  (∀ action_name,
     placeholder_action action_name st = (inl (Py.NameError "status_var"), st, [])) ∧
  (∀ tool_name,
     select_tool tool_name st
     = (inl (Py.NameError "status_var"),
        set_toolbar_buttons (press tool_name (toolbar_buttons st))
          (set_current_tool (Some tool_name) st),
        [])).
Proof.
  intros H. split.
  - intros a. unfold placeholder_action, status_var_set. munfold. rewrite H. reflexivity.
  - intros t. unfold select_tool, status_var_set, press. munfold. fields. rewrite H.
    reflexivity.
Qed.

Lemma callbacks_before_status_bar_witness :
  result (placeholder_action "Undo" empty_app) = inl (Py.NameError "status_var") ∧
  result (select_tool "Move" empty_app) = inl (Py.NameError "status_var") ∧
  current_tool (exec (select_tool "Move") empty_app) = Some "Move".
Proof.
  destruct (callbacks_before_status_bar empty_app eq_refl) as [Hp Hs].
  unfold exec. rewrite (Hp "Undo"), (Hs "Move"). repeat split.
Defined.

(** A slider handler called with a name that is no key of its dictionary
    raises [KeyError] and has no effect: the status text stays and nothing is
    printed. *)
Theorem update_unknown_slider (st : App) (n : string) :
  (adjustments_vars st !! n = None →
     update_adjustment n st = (inl (Py.KeyError n), st, [])) ∧
  (color_vars st !! n = None →
     update_color n st = (inl (Py.KeyError n), st, [])).
Proof.
  split; intros H; unfold update_adjustment, update_color; munfold; rewrite H;
    reflexivity.
Qed.

Lemma update_unknown_slider_witness :
  update_adjustment "gamma" init = (inl (Py.KeyError "gamma"), init, []) ∧
  update_color "alpha" init = (inl (Py.KeyError "alpha"), init, []).
Proof.
  split.
  - apply (update_unknown_slider init "gamma"). vm_compute. reflexivity.
  - apply (update_unknown_slider init "alpha"). vm_compute. reflexivity.
Defined.

Lemma press_press t u (m : gmap string Button) : press u (press t m) = press u m.
Proof.
  apply map_eq. intros n. rewrite !lookup_press. destruct (m !! n); reflexivity.
Qed.

Lemma selected_selected name t u st :
  selected name u (selected name t st) = selected name u st.
Proof.
  unfold selected, write_status. fields. rewrite press_press, insert_insert_eq.
  reflexivity.
Qed.

(** The last selection wins: selecting [u] after [t] leaves the state that
    selecting [u] alone leaves, so selecting a tool twice is the same as
    selecting it once. *)
Theorem select_tool_last_wins (st : App) (name t u : string) :
  status_var st = Some name →
  exec (select_tool u) (exec (select_tool t) st) = exec (select_tool u) st.
Proof.
  intros H. unfold exec.
  rewrite (select_tool_run t st name H). cbv [final]. cbn [fst snd].
  rewrite (select_tool_run u _ name) by exact H.
  rewrite (select_tool_run u st name H). cbn [fst snd].
  apply selected_selected.
Qed.

Lemma select_tool_last_wins_witness :
  exec (select_tool "Cut") (exec (select_tool "Adjust") init)
  = exec (select_tool "Cut") init.
Proof. apply (select_tool_last_wins init "PY_VAR20"). vm_compute. reflexivity. Defined.

(** [select_tool] does not check the name: for a name that no toolbar button
    carries it still records the name as current tool and reports it, and
    leaves no toolbar button pressed. *)
Theorem select_tool_unregistered (st : App) (name t : string) :
  status_var st = Some name → toolbar_buttons st !! t = None →
  let r := select_tool t st in
  result r = inr tt ∧
  current_tool (final r) = Some t ∧
  status_text (final r) = Some ("Selected tool: " +:+ t) ∧
  (∀ n b, toolbar_buttons (final r) !! n = Some b → btn_pressed b = false) ∧
  dom (toolbar_buttons (final r)) = dom (toolbar_buttons st).
Proof.
  intros H Ht r. subst r. rewrite (select_tool_run t st name H).
  cbv [result final]. cbn [fst snd].
  split; [reflexivity |]. split; [reflexivity |].
  split; [apply selected_status_text, H |].
  unfold selected, write_status. fields. split.
  - intros n b Hn. rewrite lookup_press in Hn.
    destruct (toolbar_buttons st !! n) as [b0|] eqn:Hb; [| discriminate].
    injection Hn as <-. cbn. apply bool_decide_eq_false. congruence.
  - apply set_eq. intros n. rewrite !elem_of_dom, lookup_press.
    destruct (toolbar_buttons st !! n); cbn; split; intros [? ?]; eauto.
Qed.

Lemma select_tool_unregistered_witness :
  current_tool (exec (select_tool "Zoom") init) = Some "Zoom" ∧
  (∀ n b, toolbar_buttons (exec (select_tool "Zoom") init) !! n = Some b →
          btn_pressed b = false).
Proof.
  destruct (select_tool_unregistered init "PY_VAR20" "Zoom"
              ltac:(vm_compute; reflexivity) ltac:(vm_compute; reflexivity))
    as (_ & C & _ & P & _).
  split; [exact C | exact P].
Defined.

(** [toggle_frame] reads [original_text] after it has packed or forgotten the
    frame: for a header button without that attribute it raises
    [AttributeError] with the frame already toggled and the header text still
    the old one. *)
Theorem toggle_frame_without_original_text
    (st : App) (frame_container : Frame) (toggle_btn : string) (b : Button) :
  buttons st !! toggle_btn = Some b → btn_original_text b = None →
  let r := toggle_frame frame_container toggle_btn st in
  result r = inl (Py.AttributeError "original_text") ∧
  winfo_viewable frame_container (final r) = negb (winfo_viewable frame_container st) ∧
  buttons (final r) = buttons st.
Proof.
  intros Hb Ht r. subst r.
  assert (Hrun : toggle_frame frame_container toggle_btn st
                 = (inl (Py.AttributeError "original_text"),
                    set_prop_inner_slaves
                      (if winfo_viewable frame_container st
                       then forget frame_container (prop_inner_slaves st)
                       else pack frame_container (prop_inner_slaves st)) st,
                    [])).
  { unfold toggle_frame. rewrite bind_get.
    destruct (winfo_viewable frame_container st);
      unfold toggle_btn_configure; munfold; fields; rewrite Hb, Ht; reflexivity. }
  rewrite Hrun. cbv [result final]. cbn [fst snd].
  split; [reflexivity |]. split; [| reflexivity].
  unfold winfo_viewable. fields.
  destruct (bool_decide (frame_container ∈ prop_inner_slaves st)) eqn:E; cbn [negb].
  - apply bool_decide_eq_false. apply bool_decide_eq_true in E.
    rewrite elem_of_forget. tauto.
  - apply bool_decide_eq_true. rewrite elem_of_pack. auto.
Qed.

Lemma toggle_frame_without_original_text_witness :
  let r := toggle_frame adjust_frame "imp_btn" init in
  result r = inl (Py.AttributeError "original_text") ∧
  winfo_viewable adjust_frame (final r) = false.
Proof.
  destruct (buttons init !! "imp_btn") as [b|] eqn:Hb; [| vm_compute in Hb; discriminate].
  assert (Ht : btn_original_text b = None).
  { vm_compute in Hb. injection Hb as <-. reflexivity. }
  destruct (toggle_frame_without_original_text init adjust_frame "imp_btn" b Hb Ht)
    as (R & V & _).
  split; [exact R | exact V].
Defined.

(** ** Invariants of the main loop *)

Lemma init_command_cases w c :
  command_of init w = Some c →
  (∃ n f, w = toolbar_button n ∧ c = lambda_toolbar f n) ∨
  (∃ toggle frame title,
     w = named_button toggle ∧ c = lambda_toggle frame toggle ∧
     (toggle, frame, title) ∈ sections) ∨
  (selects c = false ∧ toggles c = false ∧
   ∀ filename st name, status_var st = Some name →
     result (run_command filename c st) = inr tt).
Proof.
  intros Hc. destruct w as [label|text|name|ref].
  - right. right. cbn [command_of] in Hc. apply elem_of_list_to_map_2 in Hc.
    unfold menubar in Hc.
    repeat (apply elem_of_cons in Hc as [Hc|Hc];
            [injection Hc as -> ->; repeat split; intros filename st name Hs;
             cbn [run_command]; try rewrite (placeholder_action_run _ _ _ Hs);
             reflexivity |]).
    apply elem_of_nil in Hc. destruct Hc.
  - right. right. cbn [command_of] in Hc. apply elem_of_list_to_map_2 in Hc.
    unfold controls_frame in Hc.
    repeat (apply elem_of_cons in Hc as [Hc|Hc];
            [injection Hc as -> ->; repeat split; intros filename st name Hs;
             cbn [run_command]; rewrite (placeholder_action_run _ _ _ Hs);
             reflexivity |]).
    apply elem_of_nil in Hc. destruct Hc.
  - left. cbn [command_of] in Hc.
    destruct (toolbar_buttons init !! name) as [b|] eqn:Hb; [| discriminate].
    destruct (wired_toolbar_command init name b eq_refl Hb) as [f Hf].
    cbn in Hc. rewrite Hf in Hc. injection Hc as <-. eauto.
  - right. cbn [command_of] in Hc.
    destruct (buttons init !! ref) as [b|] eqn:Hb; [| discriminate].
    cbn in Hc. apply elem_of_map_to_list in Hb.
    apply (list_elem_of_fmap_2 (λ p : string * Button, (p.1, btn_command p.2))) in Hb.
    rewrite init_named_commands in Hb. cbn [fst snd] in Hb. rewrite Hc in Hb.
    unfold sections.
    repeat (apply elem_of_cons in Hb as [Hb|Hb]; [injection Hb as -> -> |]).
    + left. exists "color_toggle", color_frame, "Color Mixer".
      repeat split. right. left.
    + right. repeat split. intros filename st name Hs. cbn [run_command].
      destruct (call_run filename fn_export_video st name Hs) as (? & ? & E & _).
      rewrite E. reflexivity.
    + right. repeat split. intros filename st name Hs. cbn [run_command].
      destruct (call_run filename fn_import_video st name Hs) as (? & ? & E & _).
      rewrite E. reflexivity.
    + left. exists "adjust_toggle", adjust_frame, "Adjustments".
      repeat split. left.
    + apply elem_of_nil in Hb. destruct Hb.
Qed.

Lemma registered_tool_names st n :
  wired st → (is_Some (toolbar_buttons st !! n) ↔ n ∈ tool_names).
Proof.
  intros H.
  assert (Hi : is_Some (toolbar_buttons init !! n) ↔ n ∈ tool_names).
  { split.
    - intros [b Hb]. apply elem_of_map_to_list in Hb.
      apply (list_elem_of_fmap_2 fst) in Hb. cbn [fst] in Hb.
      assert (Hl : (map_to_list (toolbar_buttons init)).*1
                   = ["Cut"; "Move"; "Adjust"; "Add Text"])
        by (vm_compute; reflexivity).
      rewrite Hl in Hb. unfold tool_names.
      repeat (apply elem_of_cons in Hb as [->|Hb]; [repeat constructor |]).
      apply elem_of_nil in Hb. destruct Hb.
    - unfold tool_names. intros Hn.
      repeat (apply elem_of_cons in Hn as [->|Hn]; [vm_compute; eauto |]).
      apply elem_of_nil in Hn. destruct Hn. }
  rewrite <- Hi. split; apply wired_toolbar_registered; first [exact H | reflexivity].
Qed.

Lemma current_tool_step st ev t :
  reachable st → current_tool st = Some t →
  current_tool (step st ev) = Some (tool_after t ev).
Proof.
  intros Hr Ht. pose proof (reachable_wired st Hr) as H.
  destruct (event_footprint_parts st ev) as (_ & Hfp & _).
  assert (Hsame : (∀ c, command_at st ev = Some c → selects c = false) →
                  current_tool (step st ev) = Some t).
  { intros Hc. specialize (Hfp Hc). unfold selection in Hfp.
    injection Hfp as -> _. exact Ht. }
  destruct ev as [w filename| | | | | | |]; cbn [tool_after];
    try (apply Hsame; intros c Hc; discriminate Hc).
  destruct w as [label|text|n|ref].
  - apply Hsame. cbn [command_at]. intros c Hc. rewrite (wired_command_of _ _ H) in Hc.
    destruct (init_command_cases _ c Hc)
      as [(? & ? & E & _) | [(? & ? & ? & E & _) | (Hs & _)]];
      [discriminate E | discriminate E | exact Hs].
  - apply Hsame. cbn [command_at]. intros c Hc. rewrite (wired_command_of _ _ H) in Hc.
    destruct (init_command_cases _ c Hc)
      as [(? & ? & E & _) | [(? & ? & ? & E & _) | (Hs & _)]];
      [discriminate E | discriminate E | exact Hs].
  - case_bool_decide as Hn.
    + apply (registered_tool_names st n H) in Hn.
      destruct (toolbar_click_run st n filename H Hn) as (st' & _ & E).
      rewrite E. reflexivity.
    + rewrite step_invoke_at. cbn [command_of].
      destruct (toolbar_buttons st !! n) as [b|] eqn:Hb; [| exact Ht].
      exfalso. apply Hn, (registered_tool_names st n H). eauto.
  - apply Hsame. cbn [command_at]. intros c Hc. rewrite (wired_command_of _ _ H) in Hc.
    destruct (init_command_cases _ c Hc)
      as [(? & ? & E & _) | [(? & ? & ? & _ & -> & _) | (Hs & _)]];
      [discriminate E | reflexivity | exact Hs].
Qed.

(** The current tool follows the toolbar: after any sequence of events it is
    the name of the tool button clicked last, and ["Move"] if no tool button
    was clicked; no other event changes it, and a click on a toolbar name
    that carries no button changes nothing. *)
Theorem current_tool_tracks_clicks (evs : list Event) :
  current_tool (run evs init) = Some (foldl tool_after "Move" evs).
Proof.
  assert (Hgen : ∀ evs st t, reachable st → current_tool st = Some t →
                 current_tool (run evs st) = Some (foldl tool_after t evs)).
  { clear. induction evs as [|ev evs IH]; intros st t Hr Ht; [exact Ht |].
    cbn [run foldl]. apply (IH (step st ev)); [constructor; exact Hr |].
    apply current_tool_step; assumption. }
  apply Hgen; [apply reachable_init | reflexivity].
Qed.

Lemma toggled_headers frame toggle title b st :
  (toggle, frame, title) ∈ sections → headers_consistent st →
  headers_consistent (toggled frame toggle title b st).
Proof.
  intros Hin Hh toggle' frame' title' Hin'. specialize (Hh toggle' frame' title' Hin').
  destruct (toggled_buttons frame toggle title b st) as [Ht Ho].
  unfold sections in Hin, Hin'.
  repeat (apply elem_of_cons in Hin as [Hin|Hin]; [injection Hin as -> -> -> |]);
    [ | | apply elem_of_nil in Hin; destruct Hin ];
    (repeat (apply elem_of_cons in Hin' as [Hin'|Hin']; [injection Hin' as -> -> -> |]);
     [ | | apply elem_of_nil in Hin'; destruct Hin' ]);
    first
      [ rewrite Ht, toggled_viewable;
        destruct (winfo_viewable _ st); reflexivity
      | rewrite Ho by discriminate;
        rewrite toggled_viewable_other by discriminate; exact Hh ].
Qed.

Lemma reachable_headers_consistent st : reachable st → headers_consistent st.
Proof.
  assert (Hext : ∀ s s', panel s' = panel s → headers_consistent s → headers_consistent s').
  { intros s s' E Hh toggle frame title Hin. unfold panel in E. injection E as E1 E2.
    unfold winfo_viewable. rewrite E1, E2. apply (Hh toggle frame title Hin). }
  induction 1 as [|st ev Hr IH].
  - intros toggle frame title Hin. unfold sections in Hin.
    repeat (apply elem_of_cons in Hin as [Hin|Hin];
            [injection Hin as -> -> ->; vm_compute; reflexivity |]).
    apply elem_of_nil in Hin. destruct Hin.
  - pose proof (reachable_wired st Hr) as H.
    destruct (event_footprint_parts st ev) as (_ & _ & Hfp & _).
    destruct ev as [w filename| | | | | | |];
      try (apply (Hext st); [apply Hfp; intros c Hc; discriminate Hc | exact IH]).
    destruct (command_of st w) as [c|] eqn:Hc.
    + pose proof Hc as Hc'. rewrite (wired_command_of _ _ H) in Hc'.
      destruct (init_command_cases w c Hc')
        as [(n & f & -> & ->) | [(t & fr & ti & -> & -> & Hin) | (_ & Ht & _)]].
      * apply (Hext st); [| exact IH]. apply Hfp. cbn [command_at]. intros c E.
        rewrite Hc in E. injection E as <-. reflexivity.
      * destruct (toggle_click st t fr ti filename H Hin) as (b & _ & Hh & _).
        unfold step, exec. rewrite Hh. cbv [final]. cbn [fst snd].
        apply toggled_headers; assumption.
      * apply (Hext st); [| exact IH]. apply Hfp. cbn [command_at]. intros c' E.
        rewrite Hc in E. injection E as <-. exact Ht.
    + rewrite step_invoke_at, Hc. exact IH.
Qed.

(** The header of a section never lies: after any sequence of events the
    header button of each section shows the expanded prefix followed by the
    title exactly when the section's frame is viewable, and the collapsed
    prefix followed by the title otherwise. *)
Theorem headers_consistent_invariant (evs : list Event) :
  headers_consistent (run evs init).
Proof. apply reachable_headers_consistent, reachable_run, reachable_init. Qed.

Lemma wired_status_bar st :
  wired st →
  ∃ text, status_text st = Some text ∧ displayed st "status_bar" = Some text.
Proof.
  intros H. pose proof (wired_status_var st H) as Hs.
  assert (Hd : is_Some (string_vars st !! "PY_VAR20")).
  { apply elem_of_dom. rewrite (wired_string_vars st H). set_solver. }
  destruct Hd as [text Ht]. exists text. unfold status_text. rewrite Hs. cbn.
  split; [exact Ht |].
  pose proof (wired_labels_lookup st "status_bar" H) as Hl. unfold displayed.
  destruct (labels st !! "status_bar") as [l|]; [| discriminate Hl].
  cbn in Hl. injection Hl as Hl. cbn. unfold Label_displayed. rewrite Hl, Ht. reflexivity.
Qed.

(** While the main loop runs the status variable always holds a text, and
    the status bar label shows exactly that text. *)
Theorem status_bar_shows_status (evs : list Event) :
  ∃ text, status_text (run evs init) = Some text ∧
          displayed (run evs init) "status_bar" = Some text.
Proof. apply wired_status_bar, reachable_wired, reachable_run, reachable_init. Qed.

(** No command of a button or menu entry raises while the main loop runs. *)
Theorem commands_never_raise (st : App) (w : Widget) (c : Command) (filename : string) :
  reachable st → command_of st w = Some c →
  result (run_command filename c st) = inr tt.
Proof.
  intros Hr Hc. pose proof (reachable_wired st Hr) as H.
  pose proof (wired_status_var st H) as Hs.
  pose proof Hc as Hc'. rewrite (wired_command_of _ _ H) in Hc'.
  destruct (init_command_cases w c Hc')
    as [(n & f & -> & ->) | [(t & fr & ti & -> & -> & Hin) | (_ & _ & Hok)]].
  - cbn [run_command].
    destruct (call_run filename f st _ Hs) as (st' & out & E & Hs' & _).
    rewrite (bind_run _ _ _ _ _ _ E), (select_tool_run _ _ _ Hs'). reflexivity.
  - destruct (toggle_click st t fr ti filename H Hin) as (b & _ & _ & E).
    cbn [run_command]. rewrite E. reflexivity.
  - apply (Hok filename st _ Hs).
Qed.

Lemma commands_never_raise_witness :
  result (run_command "" (lambda_toolbar fn_adjust_tool "Adjust") init) = inr tt.
Proof.
  apply (commands_never_raise init (toolbar_button "Adjust")); [apply reachable_init |].
  vm_compute. reflexivity.
Defined.

(** The keyboard shortcuts do what the menu entries do: Control-s is the
    Save entry and Control-q the Exit entry, with the same result, state and
    console output. *)
Theorem shortcuts_match_menu (st : App) (filename : string) :
  reachable st →
  handle key_control_s st = handle (invoke (menu_entry "Save") filename) st ∧
  handle key_control_q st = handle (invoke (menu_entry "Exit") filename) st.
Proof.
  intros Hr. pose proof (reachable_wired st Hr) as H. split.
  - rewrite (handle_invoke st (menu_entry "Save") filename
               (lambda_placeholder "Save Project") H eq_refl). reflexivity.
  - rewrite (handle_invoke st (menu_entry "Exit") filename root_quit H eq_refl).
    reflexivity.
Qed.

Lemma shortcuts_match_menu_witness :
  handle key_control_s init = handle (invoke (menu_entry "Save") "") init ∧
  handle key_control_q init = handle (invoke (menu_entry "Exit") "") init.
Proof. apply (shortcuts_match_menu init ""). apply reachable_init. Defined.

(** ** Slider moves *)

Lemma wired_adjustment st n :
  wired st → n ∈ adjustment_names →
  ∃ var, adjustments_vars st !! n = Some var ∧
         dv_trace var = [updater n (adjust_val_lbl n)].
Proof.
  intros H Hn. apply (f_equal w_adjustments) in H. cbn [wiring w_adjustments] in H.
  apply (f_equal (λ m, m !! n)) in H. rewrite !lookup_fmap in H.
  assert (Hi : dv_trace <$> adjustments_vars init !! n
               = Some [updater n (adjust_val_lbl n)]).
  { unfold adjustment_names in Hn.
    repeat (apply elem_of_cons in Hn as [->|Hn]; [vm_compute; reflexivity |]).
    apply elem_of_nil in Hn. destruct Hn. }
  rewrite Hi in H. destruct (adjustments_vars st !! n) as [var|]; [| discriminate].
  cbn in H. injection H as H. eauto.
Qed.

Lemma wired_color st n :
  wired st → n ∈ ["r"; "g"; "b"] →
  ∃ var, color_vars st !! n = Some var ∧
         iv_trace var = [color_updater n (color_val_lbl n)].
Proof.
  intros H Hn. apply (f_equal w_colors) in H. cbn [wiring w_colors] in H.
  apply (f_equal (λ m, m !! n)) in H. rewrite !lookup_fmap in H.
  assert (Hi : iv_trace <$> color_vars init !! n
               = Some [color_updater n (color_val_lbl n)]).
  { repeat (apply elem_of_cons in Hn as [->|Hn]; [vm_compute; reflexivity |]).
    apply elem_of_nil in Hn. destruct Hn. }
  rewrite Hi in H. destruct (color_vars st !! n) as [var|]; [| discriminate].
  cbn in H. injection H as H. eauto.
Qed.

Lemma scale_adjustment_run st n v var lbl name :
  adjustments_vars st !! n = Some var → dv_trace var = [updater n lbl] →
  status_var st = Some name →
  handle (scale_adjustment n v) st
  = (inr tt,
     write_status name (Py.capitalize n +:+ ": " +:+ Py.format_2f v)
       (set_labels
          (alter (λ l, {| lbl_text := Py.format_2f v;
                          lbl_textvariable := lbl_textvariable l |}) lbl (labels st))
          (set_adjustments_vars
             (<[n := {| dv_value := v; dv_trace := [updater n lbl] |}]>
                (adjustments_vars st)) st)),
     ["[ADJUST] " +:+ n +:+ " = " +:+ Py.format_2f v]).
Proof.
  intros Hv Ht Hs. cbn [handle]. unfold DoubleVar_set, update_adjustment.
  unfold status_var_set, StringVar_set. munfold. rewrite Hv, Ht.
  cbn [for_each run_callback]. unfold Label_configure_text. munfold. fields.
  rewrite lookup_insert_eq. fields. rewrite lookup_insert_eq. fields. rewrite Hs.
  reflexivity.
Qed.

Lemma scale_color_run st n v z var lbl name :
  color_vars st !! n = Some var → iv_trace var = [color_updater n lbl] →
  status_var st = Some name → Py.int_float v = inr z →
  handle (scale_color n v) st
  = (inr tt,
     write_status name (Py.upper n +:+ ": " +:+ Py.str_int z)
       (set_labels
          (alter (λ l, {| lbl_text := Py.str_int z;
                          lbl_textvariable := lbl_textvariable l |}) lbl (labels st))
          (set_color_vars
             (<[n := {| iv_value := PyFloat v; iv_trace := [color_updater n lbl] |}]>
                (color_vars st)) st)),
     ["[COLOR] " +:+ Py.upper n +:+ " = " +:+ Py.str_int z]).
Proof.
  intros Hv Ht Hs Hz. cbn [handle]. unfold IntVar_set, update_color, IntVar_get.
  unfold status_var_set, StringVar_set. munfold. rewrite Hv, Ht.
  cbn [for_each run_callback]. unfold Label_configure_text, IntVar_get. munfold. fields.
  rewrite lookup_insert_eq. cbn [iv_value getint]. rewrite Hz. fields.
  rewrite lookup_insert_eq. cbn [iv_value getint]. rewrite Hz. fields. rewrite Hs.
  reflexivity.
Qed.

(** Moving the slider of adjustment [n] to [v], in any state of the main
    loop: the variable of [n] holds [v], the variables of the other sliders
    keep their values, the status text is [n] capitalized, [": "] and [v]
    with two decimals, and one line goes to the console. *)
Theorem adjustment_slider_moved (st : App) (n : string) (v : float) :
  reachable st → n ∈ adjustment_names →
  let r := handle (scale_adjustment n v) st in
  result r = inr tt ∧
  dv_value <$> adjustments_vars (final r) !! n = Some v ∧
  (∀ m, m ≠ n → adjustments_vars (final r) !! m = adjustments_vars st !! m) ∧
  color_vars (final r) = color_vars st ∧
  status_text (final r) = Some (Py.capitalize n +:+ ": " +:+ Py.format_2f v) ∧
  output r = ["[ADJUST] " +:+ n +:+ " = " +:+ Py.format_2f v].
Proof.
  intros Hr Hn r. subst r. pose proof (reachable_wired st Hr) as H.
  pose proof (wired_status_var st H) as Hs.
  destruct (wired_adjustment st n H Hn) as (var & Hv & Ht).
  rewrite (scale_adjustment_run st n v var _ _ Hv Ht Hs).
  cbv [result final output]. cbn [fst snd].
  split; [reflexivity |].
  split; [unfold write_status; fields; rewrite lookup_insert_eq; reflexivity |].
  split; [intros m Hm; unfold write_status; fields; apply lookup_insert_ne; congruence |].
  split; [reflexivity |].
  split; [| reflexivity]. apply write_status_text. fields. exact Hs.
Qed.

Lemma adjustment_slider_moved_witness :
  let r := handle (scale_adjustment "shadows" (-12.5)%float) init in
  dv_value <$> adjustments_vars (final r) !! "shadows" = Some (-12.5)%float ∧
  status_text (final r) = Some "Shadows: -12.50".
Proof.
  destruct (adjustment_slider_moved init "shadows" (-12.5)%float reachable_init
              ltac:(unfold adjustment_names; repeat constructor))
    as (_ & V & _ & _ & S & _).
  split; [exact V | exact S].
Defined.

(** Moving the slider of color [n] to a finite value [v], in any state of the
    main loop: the variable of [n] holds [v], the other color variables and
    the adjustment variables keep their values, and the status text is [n]
    upper-cased, [": "] and [v] truncated towards zero. *)
Theorem color_slider_moved (st : App) (n : string) (v : float) (z : Z) :
  reachable st → n ∈ ["r"; "g"; "b"] → Py.int_float v = inr z →
  let r := handle (scale_color n v) st in
  result r = inr tt ∧
  iv_value <$> color_vars (final r) !! n = Some (PyFloat v) ∧
  (∀ m, m ≠ n → color_vars (final r) !! m = color_vars st !! m) ∧
  adjustments_vars (final r) = adjustments_vars st ∧
  status_text (final r) = Some (Py.upper n +:+ ": " +:+ Py.str_int z) ∧
  output r = ["[COLOR] " +:+ Py.upper n +:+ " = " +:+ Py.str_int z].
Proof.
  intros Hr Hn Hz r. subst r. pose proof (reachable_wired st Hr) as H.
  pose proof (wired_status_var st H) as Hs.
  destruct (wired_color st n H Hn) as (var & Hv & Ht).
  rewrite (scale_color_run st n v z var _ _ Hv Ht Hs Hz).
  cbv [result final output]. cbn [fst snd].
  split; [reflexivity |].
  split; [unfold write_status; fields; rewrite lookup_insert_eq; reflexivity |].
  split; [intros m Hm; unfold write_status; fields; apply lookup_insert_ne; congruence |].
  split; [reflexivity |].
  split; [| reflexivity]. apply write_status_text. fields. exact Hs.
Qed.

Lemma color_slider_moved_witness :
  status_text (step init (scale_color "g" 254.75%float)) = Some "G: 254".
Proof.
  destruct (color_slider_moved init "g" 254.75%float 254 reachable_init
              ltac:(repeat constructor) ltac:(vm_compute; reflexivity))
    as (_ & _ & _ & _ & S & _).
  exact S.
Defined.

(** ** The preview canvas *)

Lemma preview_step st ev :
  preview_canvas (step st ev) = preview_after (preview_canvas st) ev.
Proof.
  destruct (event_footprint_parts st ev) as (_ & _ & _ & Hp & _).
  destruct ev; cbn [preview_after]; try (apply Hp; intros; discriminate).
  reflexivity.
Qed.

(** The preview never accumulates drawings: whatever the state, after any
    sequence of events the canvas holds what it held before if the preview
    was not resized, and otherwise exactly the placeholder drawn for the size
    of the last resize; from startup that is never more than two items. *)
Theorem preview_last_resize_wins (st : App) (evs : list Event) :
  preview_canvas (run evs st) = foldl preview_after (preview_canvas st) evs ∧
  (∀ w h, preview_canvas (run (evs ++ [configure_preview_canvas w h])%list st)
          = placeholder_drawing w h) ∧
  (length (preview_canvas (run evs init)) ≤ 2)%nat.
Proof.
  assert (Hrun : ∀ evs st, preview_canvas (run evs st)
                           = foldl preview_after (preview_canvas st) evs).
  { clear. induction evs as [|ev evs IH]; intros st; [reflexivity |].
    cbn [run foldl]. fold (run evs (step st ev)). rewrite IH, preview_step. reflexivity. }
  split; [apply Hrun |]. split.
  - intros w h. rewrite Hrun, foldl_app. reflexivity.
  - rewrite Hrun. change (preview_canvas init) with (@nil CanvasItem).
    assert (Hlen : ∀ items, (length items ≤ 2)%nat →
                   (length (foldl preview_after items evs) ≤ 2)%nat).
    { induction evs as [|ev evs' IH]; intros items Hi; [exact Hi |].
      cbn [foldl]. apply IH. destruct ev; cbn [preview_after]; try exact Hi.
      unfold placeholder_drawing. cbn. lia. }
    apply Hlen. cbn. lia.
Qed.

(** ** Building the toolbar and the timeline *)

Lemma call_toolbar_registered filename f st name n :
  status_var st = Some name →
  is_Some (toolbar_buttons st !! n) →
  is_Some (toolbar_buttons (final (call filename f st)) !! n).
Proof.
  intros Hs Hn.
  destruct f; cbn [call];
    unfold cut_tool, move_tool, add_text_tool, adjust_tool, import_video, export_video;
    try (rewrite (placeholder_action_run _ _ _ Hs); exact Hn).
  - rewrite (bind_run _ _ _ _ _ _ (placeholder_action_run _ _ _ Hs)).
    rewrite (select_tool_run _ _ name) by exact Hs.
    cbv [final]. cbn [fst snd]. unfold selected, write_status. fields.
    rewrite lookup_press. destruct Hn as [b ->]. eauto.
  - destruct (String.eqb filename ""); [exact Hn |].
    rewrite (placeholder_action_run _ _ _ Hs). exact Hn.
  - destruct (String.eqb filename ""); [exact Hn |].
    rewrite (placeholder_action_run _ _ _ Hs). exact Hn.
Qed.

(** A button made by [make_toolbar_button], for any name and handler, is
    registered under its name without disturbing the other entries, starts
    not pressed, and a click on it (once the status bar exists) runs the
    handler and then selects the button's own name, exclusively. *)
Theorem made_button_selects_itself
    (st : App) (name emoji : string) (command : PyFun) (filename x : string) :
  status_var st = Some x →
  let st1 := exec (make_toolbar_button name emoji command) st in
  btn_pressed <$> toolbar_buttons st1 !! name = Some false ∧
  (∀ n, n ≠ name → toolbar_buttons st1 !! n = toolbar_buttons st !! n) ∧
  handle (invoke (toolbar_button name) filename) st1
    = (call filename command;; select_tool name) st1 ∧
  exclusive_selection name (step st1 (invoke (toolbar_button name) filename)).
Proof.
  intros Hs st1. subst st1. unfold exec, make_toolbar_button, modify. cbv [final].
  cbn [fst snd]. set (btn := {| btn_text := _ |}).
  set (st1 := set_toolbar_buttons _ st).
  assert (Hb : toolbar_buttons st1 !! name = Some btn).
  { subst st1. fields. apply lookup_insert_eq. }
  assert (Hs1 : status_var st1 = Some x) by exact Hs.
  destruct (call_run filename command st1 x Hs1) as (st' & out & E & Hs' & _).
  assert (Hreg : is_Some (toolbar_buttons st' !! name)).
  { pose proof (call_toolbar_registered filename command st1 x name Hs1
                  ltac:(rewrite Hb; eauto)) as Hr.
    rewrite E in Hr. exact Hr. }
  assert (Hrun : (call filename command;; select_tool name) st1
                 = (inr tt, selected x name st',
                    (out ++ ["Selected tool: " +:+ name])%list)).
  { rewrite (bind_run _ _ _ _ _ _ E), (select_tool_run _ _ _ Hs'). reflexivity. }
  assert (Hh : handle (invoke (toolbar_button name) filename) st1
               = (call filename command;; select_tool name) st1).
  { cbn [handle]. rewrite bind_get. cbn [command_of]. rewrite Hb. cbn.
    apply CallWrapper_ok. rewrite Hrun. reflexivity. }
  split; [rewrite Hb; reflexivity |].
  split; [intros n Hn; subst st1; fields; apply lookup_insert_ne; congruence |].
  split; [exact Hh |].
  unfold step, exec. rewrite Hh, Hrun. cbv [final]. cbn [fst snd].
  apply exclusive_selected; assumption.
Qed.

Lemma made_button_selects_itself_witness :
  exclusive_selection "Zoom"
    (step (exec (make_toolbar_button "Zoom" "Z" fn_cut_tool) init)
       (invoke (toolbar_button "Zoom") "")).
Proof.
  apply (made_button_selects_itself init "Zoom" "Z" fn_cut_tool "" "PY_VAR20").
  vm_compute. reflexivity.
Defined.

(** [populate_timeline] appends to the timeline: called on any state it adds
    the 12 clip blocks, row 0 and columns 0 to 11 in order, after the blocks
    that are there, returns normally, prints nothing and changes nothing
    else. *)
Theorem populate_timeline_appends (st : App) :
  populate_timeline st
  = (inr tt,
     set_timeline_inner (timeline_inner st ++ (clip_block <$> range 12))%list st,
     []).
Proof.
  unfold populate_timeline, range. cbn [seq fmap list_fmap for_each].
  munfold. fields. rewrite <- !app_assoc. reflexivity.
Qed.
